(** * byteme::GzipFileReader — a chunked reader over zlib's gzFile

    Shallow embedding of [include/byteme/GzipFileReader.hpp].  The class is a
    thin wrapper around four zlib entry points ([gzopen], [gzread], [gzeof],
    [gzerror]); zlib itself is an external collaborator and is taken as an
    interface ([Zlib]); so is the heap the two vectors are allocated on
    ([Heap]).  The general statements about the reader are proved for
    arbitrary implementations of these interfaces; a small simulated zlib
    ([sim_zlib]) and heap ([sim_heap]) are used to run the reader on concrete
    files. *)

From Stdlib Require Import ZArith List Bool Lia.
From Stdlib.Strings Require Import Byte.
From Stdlib.Strings Require String.
Import ListNotations String.StringSyntax.
Open Scope Z_scope.

Abbreviation string := String.string.
Delimit Scope string_scope with string.
Bind Scope string_scope with String.string.

(** ** Platform integer types

    The header mixes three integer types: [size_t] (the member [read] and the
    vector sizes), [unsigned] (the [len] parameter of [gzread]) and [int] (the
    value [gzread] returns).  We fix the usual LP64 widths and a signed plain
    [char]. *)

Module Platform.

Definition INT_MAX : Z := 2 ^ 31 - 1.
Definition SIZE_MAX : Z := 2 ^ 64 - 1.

(** [max_size()] of a vector of one-byte elements ([PTRDIFF_MAX]). *)
Definition vector_max_size : Z := 2 ^ 63 - 1.

(** [buffer_.size()] passed where [unsigned len] is expected. *)
Definition size_t_to_unsigned (n : Z) : Z := n mod 2 ^ 32.

(** [read = gzread(...)]: an [int] stored into a [size_t]. *)
Definition int_to_size_t (i : Z) : Z := i mod 2 ^ 64.

Definition uchar : Type := byte.
Definition char : Type := Z.

Definition uchar_value (b : uchar) : Z := Z.of_N (Byte.to_N b).

(** [unsigned char] to [char]: same bit pattern, value taken modulo 256 into
    [-128, 127]. *)
Definition uchar_to_char (b : uchar) : char :=
  let v := uchar_value b in if 128 <=? v then v - 256 else v.

End Platform.
Import Platform.

(** ** Outcome of a call that may throw *)

Inductive outcome (A : Type) : Type :=
| Returned (a : A)
| Threw (what : string)      (* an exception was thrown; [what] is its what() *)
| Undefined.                 (* the call ran into undefined behaviour *)
Arguments Returned {A} a.
Arguments Threw {A} what.
Arguments Undefined {A}.

Definition bind {A B : Type} (o : outcome A) (k : A -> outcome B)
  : outcome B :=
  match o with
  | Returned a => k a
  | Threw what => Threw what
  | Undefined => Undefined
  end.

Notation "x <- o ;; k" := (bind o (fun x => k))
  (at level 61, o at next level, right associativity).

(** ** Memory

    Creating a vector of [n] one-byte elements fails with [std::length_error]
    when [n] is above [max_size()], and with [std::bad_alloc] when the heap
    cannot serve the request; a vector of no elements allocates nothing.
    The heap is an interface, like zlib: [allocate m n] is the heap after
    [n] bytes have been taken from [m], if they can be.  The texts of the
    exceptions are those of libstdc++. *)

Class Heap (M : Type) : Type := {
  allocate : M -> Z -> option M
}.

Definition bad_alloc_what : string := "std::bad_alloc".
Definition length_error_what : string :=
  "cannot create std::vector larger than max_size()".
Definition resize_error_what : string := "vector::_M_default_append".

Definition new_vector {M : Type} {heap : Heap M} (m : M) (n : Z)
  (too_long : string) : outcome M :=
  if vector_max_size <? n then Threw too_long
  else if n =? 0 then Returned m
  else match allocate m n with
       | Some m' => Returned m'
       | None => Threw bad_alloc_what
       end.

(** ** The zlib interface the reader consumes

    [gzread h buf len] returns the [int] result, the contents of the caller's
    buffer after the call and the new state of the handle. *)

Class Zlib (H : Type) : Type := {
  gzopen  : string -> option H;
  gzread  : H -> list uchar -> Z -> Z * list uchar * H;
  gzeof   : H -> bool;
  gzerror : H -> string
}.

(** Calls made on a handle, in order. *)
Inductive libcall : Type :=
| CallRead (len : Z)
| CallEof
| CallError.

(** Template parameter [B]. *)
Inductive elem_type : Type := UnsignedChar | PlainChar.

(** [std::is_same<B, char>::value] *)
Definition is_same_char (B : elem_type) : bool :=
  match B with PlainChar => true | UnsignedChar => false end.

Definition elem (B : elem_type) : Type :=
  match B with UnsignedChar => uchar | PlainChar => char end.

(** A byte of the stream seen as a [B]. *)
Definition reinterpret (B : elem_type) : uchar -> elem B :=
  match B return uchar -> elem B with
  | UnsignedChar => fun b => b
  | PlainChar => uchar_to_char
  end.

(** The vector whose [data()] a pointer designates. *)
Inductive pointer : Type := buffer__data | counter_buffer_data.

(** [std::copy_n(src, count, dst)] from [unsigned char] to [char]; reading or
    writing past the end of either array is undefined. *)
Definition copy_n (src : list uchar) (count : Z) (dst : list char)
  : option (list char) :=
  if (count <=? Z.of_nat (length src)) && (count <=? Z.of_nat (length dst))
  then Some (map uchar_to_char (firstn (Z.to_nat count) src)
             ++ skipn (Z.to_nat count) dst)
  else None.

(** The secondary buffer after a call that read [n] bytes, [n] within the
    bounds of both arrays. *)
Definition copied (B : elem_type) (buf : list uchar) (n : Z) (cb : list char)
  : list char :=
  if is_same_char B
  then map uchar_to_char (firstn (Z.to_nat n) buf) ++ skipn (Z.to_nat n) cb
  else cb.

Section Reader.

Context {H : Type} {lib : Zlib H} {M : Type} {heap : Heap M}.

(** [struct GZFile]: the handle, together with the history of the calls made
    on it (the history is ghost state, it exists only in the model).  The
    destructor's [gzclose] takes no part in the properties below and is left
    out. *)
Record GZFile : Type := mkGZFile {
  handle : H;
  calls : list libcall
}.

Definition new_GZFile (path : string) : outcome GZFile :=
  match gzopen path with
  | None => Threw (String.append "failed to open file at '"
                     (String.append path "'"))
  | Some h => Returned (mkGZFile h [])
  end.

Definition call_gzread (g : GZFile) (buf : list uchar) (len : Z)
  : Z * list uchar * GZFile :=
  let '(ret, buf', h') := gzread (handle g) buf len in
  (ret, buf', mkGZFile h' (calls g ++ [CallRead len])).

Definition call_gzeof (g : GZFile) : bool * GZFile :=
  (gzeof (handle g), mkGZFile (handle g) (calls g ++ [CallEof])).

Definition call_gzerror (g : GZFile) : string * GZFile :=
  (gzerror (handle g), mkGZFile (handle g) (calls g ++ [CallError])).

Record GzipFileReader : Type := mkReader {
  gz : GZFile;
  buffer_ : list uchar;
  counter_buffer : list char;
  read : Z
}.

Variable B : elem_type.

(** The constructor, on heap [m].  Members are initialised in declaration
    order: [gz] first, so a failed open throws before any buffer exists;
    then [buffer_(buffer_size)]; [counter_buffer] starts empty and is resized
    in the body when [B] is [char].  [buffer_size] is a [size_t]. *)
Definition new_GzipFileReader (path : string) (buffer_size : Z) (m : M)
  : outcome GzipFileReader :=
  g <- new_GZFile path ;;
  m1 <- new_vector m buffer_size length_error_what ;;
  if is_same_char B then
    _ <- new_vector m1 buffer_size resize_error_what ;;
    Returned (mkReader g (repeat x00 (Z.to_nat buffer_size))
                (repeat 0 (Z.to_nat buffer_size)) 0)
  else
    Returned (mkReader g (repeat x00 (Z.to_nat buffer_size)) [] 0).

Definition default_buffer_size : Z := 65536.

(** [operator()] *)
Definition advance (r : GzipFileReader) : outcome bool * GzipFileReader :=
  let '(ret, buf, g1) :=
    call_gzread (gz r) (buffer_ r)
      (size_t_to_unsigned (Z.of_nat (length (buffer_ r)))) in
  let rd := int_to_size_t ret in
  match (if is_same_char B then copy_n buf rd (counter_buffer r)
         else Some (counter_buffer r)) with
  | None => (Undefined, mkReader g1 buf (counter_buffer r) rd)
  | Some cb =>
      if rd =? 0 then
        let '(eof, g2) := call_gzeof g1 in
        if negb eof then
          let '(what, g3) := call_gzerror g2 in
          (Threw what, mkReader g3 buf cb rd)
        else (Returned false, mkReader g2 buf cb rd)
      else (Returned true, mkReader g1 buf cb rd)
  end.

(** The [len] argument of the [gzread] call in [operator()]. *)
Definition request (r : GzipFileReader) : Z :=
  size_t_to_unsigned (Z.of_nat (length (buffer_ r))).

(** [buffer()]: the address returned, and the array found there. *)
Definition buffer_ptr : pointer :=
  if is_same_char B then counter_buffer_data else buffer__data.

Definition buffer (r : GzipFileReader) : list (elem B) :=
  match B return list (elem B) with
  | PlainChar => counter_buffer r
  | UnsignedChar => buffer_ r
  end.

(** [available()] *)
Definition available (r : GzipFileReader) : Z := read r.

(** The bytes a caller may look at: [buffer()[0 .. available())]. *)
Definition chunk (r : GzipFileReader) : list (elem B) :=
  firstn (Z.to_nat (available r)) (buffer r).

(** The loop of the class documentation: call [operator()] until it returns
    [false], collecting the chunk exposed after every call.  [None] when
    [fuel] calls were not enough. *)
Fixpoint read_all (fuel : nat) (r : GzipFileReader)
  : option (outcome (list (elem B))) :=
  match fuel with
  | O => None
  | S fuel' =>
      match advance r with
      | (Undefined, _) => Some Undefined
      | (Threw what, _) => Some (Threw what)
      | (Returned false, r') => Some (Returned (chunk r'))
      | (Returned true, r') =>
          match read_all fuel' r' with
          | Some (Returned rest) => Some (Returned (chunk r' ++ rest))
          | other => other
          end
      end
  end.

(** Both vectors keep the size given to the constructor. *)
Definition has_capacity (cap : nat) (r : GzipFileReader) : Prop :=
  length (buffer_ r) = cap /\
  length (counter_buffer r) = (if is_same_char B then cap else O).

(** The public interface as method calls on an object. *)
Inductive method : Type := m_advance | m_buffer | m_available.

Inductive value : Type :=
| v_bool (b : bool)
| v_pointer (p : pointer) (target : list (elem B))
| v_size (n : Z).

Definition invoke (m : method) (r : GzipFileReader)
  : outcome value * GzipFileReader :=
  match m with
  | m_advance =>
      match advance r with
      | (Returned b, r') => (Returned (v_bool b), r')
      | (Threw what, r') => (Threw what, r')
      | (Undefined, r') => (Undefined, r')
      end
  | m_buffer => (Returned (v_pointer buffer_ptr (buffer r)), r)
  | m_available => (Returned (v_size (available r)), r)
  end.

Definition is_observer (m : method) : bool :=
  match m with m_advance => false | _ => true end.

(** Run a sequence of calls, stopping at the first that does not return. *)
Fixpoint invoke_all (ms : list method) (r : GzipFileReader)
  : list (outcome value) * GzipFileReader :=
  match ms with
  | [] => ([], r)
  | m :: ms' =>
      match invoke m r with
      | (Returned v, r') =>
          let '(vs, r'') := invoke_all ms' r' in (Returned v :: vs, r'')
      | (o, r') => ([o], r')
      end
  end.

End Reader.

Arguments GZFile H : clear implicits.
Arguments GzipFileReader H : clear implicits.

(** ** What zlib promises on a well-formed stream

    [decodes h c] reads: the bytes still to come out of handle [h] are exactly
    [c], and the stream then ends cleanly.  A read of [0 < len <= INT_MAX]
    bytes delivers a prefix of [c] of at most [len] bytes at the start of the
    buffer and leaves a handle that decodes the rest; it delivers nothing only
    when nothing is left, and then the end-of-file indicator is set. *)

Record stream_contract {H : Type} {lib : Zlib H}
  (decodes : H -> list uchar -> Prop) : Prop := {
  read_step :
    forall h c buf len,
      decodes h c ->
      0 < len <= INT_MAX ->
      len <= Z.of_nat (length buf) ->
      exists (n : nat) (h' : H),
        gzread h buf len = (Z.of_nat n, firstn n c ++ skipn n buf, h') /\
        (n <= length c)%nat /\
        Z.of_nat n <= len /\
        decodes h' (skipn n c) /\
        (n = O -> c = [] /\ gzeof h' = true)
}.

(** ** A simulated zlib

    Files live on a small disk.  A gzip file is described by what it
    decompresses to and by the condition of its stream; any other file is, as
    zlib.h documents for [gzread], read through unchanged.  [gzopen] succeeds
    on every file that exists: the format is only looked at by the first read.
    [gzread] follows the order of zlib's own: a handle in its error state
    answers -1; a length that does not fit an [int] is an error; a length of
    0 reads nothing; damaged data is an error; otherwise bytes are delivered,
    and a read that finds nothing left sets the end-of-file indicator.  Every
    error leaves the handle in its error state. *)

Inductive ending : Type :=
| CleanEnd        (* the stream is complete *)
| DataError       (* the compressed data is damaged: the first read that
                     has to decompress fails *)
| Failed.         (* the handle is in its error state: every read fails *)

Inductive sim_file : Type :=
| GzipStream (content : list uchar) (e : ending)
| PlainBytes (raw : list uchar).

Definition has_gzip_header (f : sim_file) : bool :=
  match f with GzipStream _ _ => true | PlainBytes _ => false end.

Definition sim_disk : Type := list (string * sim_file).

Fixpoint lookup_file (d : sim_disk) (path : string) : option sim_file :=
  match d with
  | [] => None
  | (p, f) :: d' => if String.eqb p path then Some f else lookup_file d' path
  end.

Record sim_handle : Type := mkSim {
  pending : list uchar;
  fate : ending;
  past : bool;
  errmsg : string
}.

Definition sim_gzopen (d : sim_disk) (path : string) : option sim_handle :=
  match lookup_file d path with
  | None => None
  | Some (GzipStream c e) => Some (mkSim c e false String.EmptyString)
  | Some (PlainBytes raw) => Some (mkSim raw CleanEnd false String.EmptyString)
  end.

Definition sim_gzread (h : sim_handle) (buf : list uchar) (len : Z)
  : Z * list uchar * sim_handle :=
  match fate h with
  | Failed => (-1, buf, h)
  | _ =>
      if INT_MAX <? len then
        (-1, buf, mkSim (pending h) Failed (past h)
                    "request does not fit in an int"%string)
      else if len =? 0 then (0, buf, h)
      else
        match fate h with
        | DataError =>
            (-1, buf, mkSim (pending h) Failed (past h)
                        "compressed data error"%string)
        | CleanEnd | Failed =>
            match pending h with
            | [] => (0, buf, mkSim [] CleanEnd true (errmsg h))
            | _ :: _ =>
                let out := firstn (Z.to_nat len) (pending h) in
                let n := length out in
                (Z.of_nat n, out ++ skipn n buf,
                 mkSim (skipn n (pending h)) (fate h) (past h) (errmsg h))
            end
        end
  end.

Definition sim_zlib (d : sim_disk) : Zlib sim_handle := {|
  gzopen := sim_gzopen d;
  gzread := sim_gzread;
  gzeof := past;
  gzerror := errmsg
|}.

Definition sim_decodes (h : sim_handle) (c : list uchar) : Prop :=
  pending h = c /\ fate h = CleanEnd.

Definition bytes (s : string) : list uchar := String.list_byte_of_string s.
Arguments bytes s%_string.

(** The disk used by the examples. *)
Definition example_disk : sim_disk :=
  [ ("letters.gz"%string, GzipStream (bytes "ABCDEFGHIJ") CleanEnd);
    ("empty.gz"%string, GzipStream [] CleanEnd);
    ("high.gz"%string, GzipStream [x41; xe9; xff] CleanEnd);
    ("corrupt.gz"%string, GzipStream [] DataError);
    ("notes.txt"%string, PlainBytes (bytes "plain text")) ].

Definition example_zlib : Zlib sim_handle := sim_zlib example_disk.

(** A heap described by the number of bytes it can still give. *)
#[export] Instance sim_heap : Heap Z := {|
  allocate free n := if n <=? free then Some (free - n) else None
|}.

(** The reader the constructor builds on a file that decompresses to [c] and
    ends as [e] says. *)
Definition fresh_reader (B : elem_type) (c : list uchar) (e : ending)
  (buffer_size : nat) : GzipFileReader sim_handle :=
  mkReader (mkGZFile (mkSim c e false String.EmptyString) [])
    (repeat x00 buffer_size)
    (if is_same_char B then repeat 0 buffer_size else [])
    0.

(** ** Vocabulary for statements about whole runs *)

(** The library leaves the caller's buffer at its length whenever the request
    fits in it (a C function cannot resize the caller's array). *)
Definition keeps_buffer_length {H : Type} {lib : Zlib H} : Prop :=
  forall (h : H) (buf : list uchar) (len : Z),
    0 <= len <= Z.of_nat (length buf) ->
    length (snd (fst (gzread h buf len))) = length buf.

Definition is_read (c : libcall) : bool :=
  match c with CallRead _ => true | _ => false end.

Definition count_reads (cs : list libcall) : nat :=
  length (filter is_read cs).

Definition is_advance (m : method) : bool :=
  match m with m_advance => true | _ => false end.

(** May the call [c] come right after the call [prev]?  A read may come at
    any time; an end-of-file query only right after a read; an error query
    only right after an end-of-file query. *)
Definition may_follow (prev : option libcall) (c : libcall) : bool :=
  match c, prev with
  | CallRead _, _ => true
  | CallEof, Some (CallRead _) => true
  | CallError, Some CallEof => true
  | _, _ => false
  end.

Fixpoint ordered_after (prev : option libcall) (cs : list libcall) : bool :=
  match cs with
  | [] => true
  | c :: cs' => may_follow prev c && ordered_after (Some c) cs'
  end.

Definition last_call (prev : option libcall) (cs : list libcall)
  : option libcall :=
  fold_left (fun _ c => Some c) cs prev.

(** A read request that fits a buffer of [cap] bytes and an [unsigned]. *)
Definition request_within (cap : nat) (c : libcall) : Prop :=
  match c with
  | CallRead len => 0 <= len <= Z.of_nat cap /\ len < 2 ^ 32
  | _ => True
  end.

(** A handle in a sticky error state, as zlib's are after a data error:
    every further read of a positive length answers -1 and the handle stays
    in that state. *)
Record sticky_failure {H : Type} {lib : Zlib H} (failing : H -> Prop)
  : Prop := {
  failing_read :
    forall h buf len,
      failing h ->
      0 < len ->
      exists buf' h',
        gzread h buf len = (-1, buf', h') /\
        failing h' /\
        length buf' = length buf
}.

(** Two readers, one per element type, on the same handle with the same read
    buffer and count. *)
Definition same_core {H : Type} (ru rc : GzipFileReader H) : Prop :=
  gz ru = gz rc /\ buffer_ ru = buffer_ rc /\ read ru = read rc.

Definition sim_failing (h : sim_handle) : Prop :=
  fate h = DataError \/ fate h = Failed.

Definition sim_errored (h : sim_handle) : Prop := fate h = Failed.

(** What zlib.h documents for a length that does not fit an [int]: nothing is
    read and -1 is returned. *)
Definition rejects_oversized_requests {H : Type} {lib : Zlib H} : Prop :=
  forall (h : H) (buf : list uchar) (len : Z),
    INT_MAX < len ->
    exists buf' h',
      gzread h buf len = (-1, buf', h') /\ length buf' = length buf.

(** What [gzread] and [gzeof] keep to on every handle.  The result of a read
    is a byte count within the request, or -1; the caller's array keeps its
    length and, on a byte count, its contents beyond the count; a read of a
    positive length that delivers nothing has come up short of data and
    leaves the end-of-file indicator set; an error puts the handle in its
    error state, which this class never clears, and there every read
    fails. *)
Record zlib_contract {H : Type} {lib : Zlib H} (errored : H -> Prop)
  : Prop := {
  result_range :
    forall h buf len ret buf' h',
      gzread h buf len = (ret, buf', h') -> 0 <= len -> -1 <= ret <= len;
  array_kept :
    forall h buf len ret buf' h',
      gzread h buf len = (ret, buf', h') ->
      0 <= len <= Z.of_nat (length buf) ->
      length buf' = length buf /\
      (0 <= ret -> skipn (Z.to_nat ret) buf' = skipn (Z.to_nat ret) buf);
  short_read_sets_eof :
    forall h buf len buf' h',
      gzread h buf len = (0, buf', h') -> 0 < len -> gzeof h' = true;
  error_is_entered :
    forall h buf len buf' h',
      gzread h buf len = (-1, buf', h') -> errored h';
  error_is_sticky :
    forall h buf len ret buf' h',
      errored h -> gzread h buf len = (ret, buf', h') -> ret = -1
}.

(** * Properties *)

(** ** Integer conversions and [copy_n] *)

Lemma int_to_size_t_minus_one : int_to_size_t (-1) = SIZE_MAX.
Proof. reflexivity. Qed.

Lemma size_t_to_unsigned_le (n : Z) :
  0 <= n -> 0 <= size_t_to_unsigned n <= n.
Proof.
  unfold size_t_to_unsigned. intros Hn. split.
  - apply Z.mod_pos_bound. lia.
  - apply Z.mod_le; lia.
Qed.

Lemma size_t_to_unsigned_small (n : Z) :
  0 <= n <= INT_MAX -> size_t_to_unsigned n = n.
Proof.
  unfold size_t_to_unsigned, INT_MAX. intros Hn.
  apply Z.mod_small. lia.
Qed.

Lemma size_t_to_unsigned_bound (n : Z) : 0 <= size_t_to_unsigned n < 2 ^ 32.
Proof. unfold size_t_to_unsigned. apply Z.mod_pos_bound. lia. Qed.

Lemma copy_n_in_range (src : list uchar) (count : Z) (dst : list char) :
  0 <= count <= Z.of_nat (length src) ->
  count <= Z.of_nat (length dst) ->
  copy_n src count dst =
    Some (map uchar_to_char (firstn (Z.to_nat count) src)
          ++ skipn (Z.to_nat count) dst).
Proof.
  intros [_ Hs] Hd. unfold copy_n.
  apply Z.leb_le in Hs. apply Z.leb_le in Hd.
  rewrite Hs, Hd. reflexivity.
Qed.

Lemma copy_n_zero (src : list uchar) (dst : list char) :
  copy_n src 0 dst = Some dst.
Proof.
  unfold copy_n.
  assert (Hs : (0 <=? Z.of_nat (length src)) = true) by (apply Z.leb_le; lia).
  assert (Hd : (0 <=? Z.of_nat (length dst)) = true) by (apply Z.leb_le; lia).
  rewrite Hs, Hd. reflexivity.
Qed.

(** [unsigned char -> char] keeps the bit pattern. *)
Lemma uchar_to_char_bits (b : uchar) :
  -128 <= uchar_to_char b <= 127 /\ (uchar_to_char b) mod 256 = uchar_value b.
Proof.
  unfold uchar_to_char, uchar_value. destruct b; vm_compute; intuition discriminate.
Qed.

(** ** One call of [operator()] *)

Section ReaderFacts.

Context {H : Type} {lib : Zlib H} {M : Type} {heap : Heap M}.

Lemma request_le_size (r : GzipFileReader H) :
  0 <= request r <= Z.of_nat (length (buffer_ r)).
Proof. unfold request. apply size_t_to_unsigned_le. lia. Qed.

Lemma request_lt_2_32 (r : GzipFileReader H) : 0 <= request r < 2 ^ 32.
Proof. unfold request. apply size_t_to_unsigned_bound. Qed.

(** [operator()] once the reply of [gzread] is named. *)
Lemma advance_unfold (B : elem_type) (r : GzipFileReader H) ret buf h' :
  gzread (handle (gz r)) (buffer_ r) (request r) = (ret, buf, h') ->
  advance B r =
    let g1 := mkGZFile h' (calls (gz r) ++ [CallRead (request r)]) in
    let rd := int_to_size_t ret in
    match (if is_same_char B then copy_n buf rd (counter_buffer r)
           else Some (counter_buffer r)) with
    | None => (Undefined, mkReader g1 buf (counter_buffer r) rd)
    | Some cb =>
        if rd =? 0 then
          if negb (gzeof h') then
            (Threw (gzerror h'),
             mkReader (mkGZFile h' (calls g1 ++ [CallEof] ++ [CallError]))
               buf cb rd)
          else (Returned false,
                mkReader (mkGZFile h' (calls g1 ++ [CallEof])) buf cb rd)
        else (Returned true, mkReader g1 buf cb rd)
    end.
Proof.
  intros E. unfold advance, call_gzread, request in *. rewrite E. cbn zeta.
  destruct (if is_same_char B then _ else _) as [cb|]; [|reflexivity].
  destruct (int_to_size_t ret =? 0); [|reflexivity].
  unfold call_gzeof, call_gzerror; cbn [handle calls].
  destruct (gzeof h'); cbn [negb]; [reflexivity|].
  rewrite <- app_assoc. reflexivity.
Qed.

Lemma advance_in_bounds (B : elem_type) (cap : nat) (r : GzipFileReader H)
      ret buf h' :
  has_capacity B cap r ->
  gzread (handle (gz r)) (buffer_ r) (request r) = (ret, buf, h') ->
  0 <= ret <= request r ->
  length buf = length (buffer_ r) ->
  exists g,
    advance B r =
      ((if 0 <? ret then Returned true
        else if gzeof h' then Returned false
             else Threw (gzerror h')),
       mkReader g buf (copied B buf ret (counter_buffer r)) ret)
    /\ handle g = h'.
Proof.
  intros [Hb Hc] E Hret Hlen.
  pose proof (request_le_size r) as Hq.
  pose proof (request_lt_2_32 r) as Hq'.
  rewrite (advance_unfold B r ret buf h' E). cbn zeta.
  assert (Hrd : int_to_size_t ret = ret).
  { unfold int_to_size_t. apply Z.mod_small. lia. }
  rewrite Hrd.
  assert (Hcopy : (if is_same_char B then copy_n buf ret (counter_buffer r)
                   else Some (counter_buffer r))
                  = Some (copied B buf ret (counter_buffer r))).
  { unfold copied. destruct (is_same_char B); [|reflexivity].
    apply copy_n_in_range; lia. }
  rewrite Hcopy.
  destruct (Z.eqb_spec ret 0) as [-> | Hnz].
  - cbn [Z.ltb Z.compare]. destruct (gzeof h'); cbn [negb];
      eexists; split; reflexivity.
  - assert (Hpos : (0 <? ret) = true) by (apply Z.ltb_lt; lia).
    rewrite Hpos. eexists; split; reflexivity.
Qed.

(** ** Construction *)

Lemma new_GZFile_cases (path : string) :
  match gzopen path with
  | None =>
      new_GZFile path =
        Threw (String.append "failed to open file at '"
                 (String.append path "'"))
  | Some h => new_GZFile path = Returned (mkGZFile h [])
  end.
Proof. unfold new_GZFile. destruct (gzopen path); reflexivity. Qed.

Lemma new_vector_cases (m : M) (n : Z) (too_long : string) :
  match new_vector m n too_long with
  | Returned m' =>
      n <= vector_max_size /\
      ((n = 0 /\ m' = m) \/ (n <> 0 /\ allocate m n = Some m'))
  | Threw what =>
      (vector_max_size < n /\ what = too_long) \/
      (n <= vector_max_size /\ n <> 0 /\ allocate m n = None /\
       what = bad_alloc_what)
  | Undefined => False
  end.
Proof.
  unfold new_vector.
  destruct (Z.ltb_spec vector_max_size n) as [Hbig | Hfit].
  - left. split; [exact Hbig | reflexivity].
  - destruct (Z.eqb_spec n 0) as [Hz | Hnz].
    + split; [exact Hfit|]. left. split; [exact Hz | reflexivity].
    + destruct (allocate m n) as [m'|] eqn:Ha.
      * split; [exact Hfit|]. right. split; [exact Hnz | reflexivity].
      * right. repeat split; assumption.
Qed.

(** The reader a successful construction returns. *)
Lemma new_returns (B : elem_type) (path : string) (n : Z) (m : M)
      (r : GzipFileReader H) :
  new_GzipFileReader B path n m = Returned r ->
  exists h,
    gzopen path = Some h /\
    r = mkReader (mkGZFile h []) (repeat x00 (Z.to_nat n))
          (if is_same_char B then repeat 0 (Z.to_nat n) else []) 0.
Proof.
  unfold new_GzipFileReader. pose proof (new_GZFile_cases path) as Hg.
  destruct (gzopen path) as [h|]; rewrite Hg; cbn [bind]; [|discriminate].
  destruct (new_vector m n length_error_what) as [m1| |]; cbn [bind];
    try discriminate.
  destruct (is_same_char B).
  - destruct (new_vector m1 n resize_error_what) as [m2| |]; cbn [bind];
      try discriminate.
    intros E. injection E as <-. exists h. split; reflexivity.
  - intros E. injection E as <-. exists h. split; reflexivity.
Qed.

Lemma new_has_capacity (B : elem_type) (path : string) (n : Z) (m : M)
      (r : GzipFileReader H) :
  new_GzipFileReader B path n m = Returned r ->
  has_capacity B (Z.to_nat n) r.
Proof.
  intros Hnew. destruct (new_returns B path n m r Hnew) as (h & _ & ->).
  unfold has_capacity. cbn [buffer_ counter_buffer].
  rewrite repeat_length. destruct (is_same_char B); [|easy].
  rewrite repeat_length. easy.
Qed.

(** When and how construction throws. *)
Lemma new_throws (B : elem_type) (path : string) (n : Z) (m : M)
      (what : string) :
  new_GzipFileReader B path n m = Threw what <->
  (gzopen path = None /\
   what = String.append "failed to open file at '" (String.append path "'"))
  \/
  (gzopen path <> None /\
   ((vector_max_size < n /\ what = length_error_what) \/
    (n <= vector_max_size /\ n <> 0 /\ what = bad_alloc_what /\
     (allocate m n = None \/
      (is_same_char B = true /\
       exists m1, allocate m n = Some m1 /\ allocate m1 n = None))))).
Proof.
  unfold new_GzipFileReader. pose proof (new_GZFile_cases path) as Hg.
  destruct (gzopen path) as [h|]; rewrite Hg; cbn [bind].
  2:{ split.
      - intros E. injection E as <-. left. split; reflexivity.
      - intros [[_ ->] | [Hne _]]; [reflexivity | congruence]. }
  pose proof (new_vector_cases m n length_error_what) as H1.
  destruct (new_vector m n length_error_what) as [m1| w1 |]; cbn [bind];
    [| | contradiction].
  - destruct H1 as [Hfit Hal].
    destruct (is_same_char B).
    + pose proof (new_vector_cases m1 n resize_error_what) as H2.
      destruct (new_vector m1 n resize_error_what) as [m2| w2 |];
        cbn [bind]; [| | contradiction].
      * split; [discriminate|].
        intros [[Hn _] | [_ [[Hbig _] | (_ & Hnz & _ & Hfail)]]];
          [discriminate | lia |].
        destruct H2 as [_ H2].
        destruct Hal as [[Hz _] | [_ Ha]]; [contradiction|].
        destruct Hfail as [Hf | (_ & m1' & Ha' & Hf)]; [congruence|].
        assert (m1' = m1) by congruence. subst m1'.
        destruct H2 as [[Hz _] | [_ Ha2]]; congruence.
      * destruct H2 as [[Hbig _] | (_ & Hnz & Ha2 & ->)]; [lia|].
        destruct Hal as [[Hz _] | [_ Ha]]; [contradiction|].
        split.
        -- intros E. injection E as <-. right. split; [discriminate|].
           right. repeat split; try assumption.
           right. split; [reflexivity|]. exists m1. split; assumption.
        -- intros [[Hn _] | [_ [[Hbig _] | (_ & _ & -> & _)]]];
             [discriminate | lia | reflexivity].
    + split; [discriminate|].
      intros [[Hn _] | [_ [[Hbig _] | (_ & Hnz & _ & Hfail)]]];
        [discriminate | lia |].
      destruct Hal as [[Hz _] | [_ Ha]]; [contradiction|].
      destruct Hfail as [Hf | (Hb & _)]; [congruence | discriminate].
  - destruct H1 as [[Hbig ->] | (Hfit & Hnz & Ha & ->)].
    + split.
      * intros E. injection E as <-. right. split; [discriminate|].
        left. split; [exact Hbig | reflexivity].
      * intros [[Hn _] | [_ [[_ ->] | (Hfit & _)]]];
          [discriminate | reflexivity | lia].
    + split.
      * intros E. injection E as <-. right. split; [discriminate|].
        right. repeat split; try assumption. left. exact Ha.
      * intros [[Hn _] | [_ [[Hbig _] | (_ & _ & -> & _)]]];
          [discriminate | lia | reflexivity].
Qed.

Lemma new_is_defined (B : elem_type) (path : string) (n : Z) (m : M) :
  new_GzipFileReader B path n m <> Undefined.
Proof.
  unfold new_GzipFileReader, new_GZFile.
  destruct (gzopen path) as [h|]; cbn [bind]; [|discriminate].
  pose proof (new_vector_cases m n length_error_what) as H1.
  destruct (new_vector m n length_error_what) as [m1| w1 |]; cbn [bind];
    [| discriminate | contradiction].
  destruct (is_same_char B); [|discriminate].
  pose proof (new_vector_cases m1 n resize_error_what) as H2.
  destruct (new_vector m1 n resize_error_what) as [m2| w2 |]; cbn [bind];
    [discriminate | discriminate | contradiction].
Qed.

(** C5 (as amended): when the library's open fails, the constructor throws at
    once, with the message naming the path, and no reader comes into
    existence.  The constructor makes no read and no end-of-file query and
    never looks at the stream header: a reader it returns holds the handle
    just as [gzopen] gave it, and after a successful open it can fail only in
    creating its buffers, with the message of [std::length_error] or
    [std::bad_alloc]. *)
Theorem construction_follows_gzopen (B : elem_type) (path : string) (n : Z)
        (m : M) :
  (gzopen path = None ->
     new_GzipFileReader B path n m =
       Threw (String.append "failed to open file at '"
                (String.append path "'")) /\
     forall r, new_GzipFileReader B path n m <> Returned r) /\
  (forall r, new_GzipFileReader B path n m = Returned r ->
     exists h, gzopen path = Some h /\ gz r = mkGZFile h []) /\
  (forall h what,
     gzopen path = Some h ->
     new_GzipFileReader B path n m = Threw what ->
     what = length_error_what \/ what = bad_alloc_what).
Proof.
  split; [|split].
  - intros Hn.
    assert (Hthrow : new_GzipFileReader B path n m =
                     Threw (String.append "failed to open file at '"
                              (String.append path "'"))).
    { apply new_throws. left. split; [exact Hn | reflexivity]. }
    rewrite Hthrow. split; [reflexivity | discriminate].
  - intros r Hnew. destruct (new_returns B path n m r Hnew) as (h & Hh & ->).
    exists h. split; [exact Hh | reflexivity].
  - intros h what Hh Hthrow. apply new_throws in Hthrow.
    destruct Hthrow as [[Hn _] | [_ [[_ ->] | (_ & _ & -> & _)]]];
      [congruence | left; reflexivity | right; reflexivity].
Qed.

(** C8: right after a successful construction [available()] is 0, so the
    bytes exposed through [buffer()] form the empty sequence. *)
Theorem available_after_construction (B : elem_type) (path : string) (n : Z)
        (m : M) (r : GzipFileReader H) :
  new_GzipFileReader B path n m = Returned r ->
  available r = 0 /\ chunk B r = [].
Proof.
  intros Hnew. destruct (new_returns B path n m r Hnew) as (h & _ & ->).
  split; reflexivity.
Qed.

(** C9 (as amended): construction throws if and only if [gzopen] fails or one
    of the vectors cannot be created, that is, [buffer_size] is above the
    vector's [max_size()] or the heap cannot give the bytes of the read
    buffer or, for [B = char], of the secondary buffer.  It never runs into
    undefined behaviour, and a [buffer_size] of 0 is accepted whenever the
    open succeeds: the reader then has two empty vectors. *)
Theorem construction_fails_iff_open_or_buffers_fail (B : elem_type)
        (path : string) (n : Z) (m : M) :
  ((exists what, new_GzipFileReader B path n m = Threw what) <->
   gzopen path = None \/
   vector_max_size < n \/
   (n <> 0 /\
    (allocate m n = None \/
     (is_same_char B = true /\
      exists m1, allocate m n = Some m1 /\ allocate m1 n = None)))) /\
  new_GzipFileReader B path n m <> Undefined /\
  (forall h, gzopen path = Some h ->
     new_GzipFileReader B path 0 m =
       Returned (mkReader (mkGZFile h []) [] [] 0)).
Proof.
  split; [|split].
  - split.
    + intros [what Hw]. apply new_throws in Hw.
      destruct Hw as [[Hn _] | [_ [[Hbig _] | (_ & Hnz & _ & Hfail)]]].
      * left. exact Hn.
      * right. left. exact Hbig.
      * right. right. split; assumption.
    + intros Hcause.
      destruct (gzopen path) as [h|] eqn:Hh.
      2:{ eexists. apply new_throws. left. rewrite Hh.
          split; reflexivity. }
      destruct (Z.ltb_spec vector_max_size n) as [Hbig | Hfit].
      * eexists. apply new_throws. right. rewrite Hh.
        split; [discriminate|]. left. split; [exact Hbig | reflexivity].
      * destruct Hcause as [Hn | [Hbig | [Hnz Hfail]]];
          [discriminate | lia |].
        eexists. apply new_throws. right. rewrite Hh.
        split; [discriminate|]. right.
        split; [exact Hfit|]. split; [exact Hnz|].
        split; [reflexivity | exact Hfail].
  - apply new_is_defined.
  - intros h Hh. unfold new_GzipFileReader, new_GZFile. rewrite Hh.
    cbn [bind]. unfold new_vector. cbn. destruct (is_same_char B); reflexivity.
Qed.

(** ** The three outcomes of [operator()] *)

(** X13: when the read reports a byte count (between 0 and the request), a
    positive count makes [operator()] return [true]; a count of zero with the
    end-of-file indicator set makes it return [false]; a count of zero with
    the indicator clear makes it throw, the exception carrying [gzerror]'s
    text.  Exactly one of the three happens. *)
Theorem advance_outcome (B : elem_type) (cap : nat) (r : GzipFileReader H)
        ret buf h' :
  has_capacity B cap r ->
  gzread (handle (gz r)) (buffer_ r) (request r) = (ret, buf, h') ->
  0 <= ret <= request r ->
  length buf = length (buffer_ r) ->
  let o := fst (advance B r) in
  (0 < ret -> o = Returned true) /\
  (ret = 0 -> gzeof h' = true -> o = Returned false) /\
  (ret = 0 -> gzeof h' = false -> o = Threw (gzerror h')) /\
  ((o = Returned true /\ 0 < ret) \/
   (o = Returned false /\ ret = 0 /\ gzeof h' = true) \/
   (o = Threw (gzerror h') /\ ret = 0 /\ gzeof h' = false)) /\
  ~ (o = Returned true /\ o = Returned false) /\
  ~ (o = Returned true /\ o = Threw (gzerror h')) /\
  ~ (o = Returned false /\ o = Threw (gzerror h')).
Proof.
  intros Hcap E Hret Hlen o.
  destruct (advance_in_bounds B cap r ret buf h' Hcap E Hret Hlen)
    as [g [Hadv _]].
  subst o. rewrite Hadv. cbn [fst].
  destruct (Z.ltb_spec 0 ret) as [Hpos | Hneg].
  - repeat split; try (intros; lia); try (intros [? ?]; discriminate).
    left. split; [reflexivity | assumption].
  - assert (ret = 0) by lia. subst ret.
    destruct (gzeof h') eqn:Heof;
      repeat split; try (intros; lia); try (intros; congruence);
      try (intros [? ?]; discriminate).
    + right; left. repeat split.
    + right; right. repeat split.
Qed.

(** The count stays within the capacity as long as the read reports a byte
    count. *)
Lemma available_in_bounds (B : elem_type) (cap : nat) (r : GzipFileReader H)
      ret buf h' :
  has_capacity B cap r ->
  gzread (handle (gz r)) (buffer_ r) (request r) = (ret, buf, h') ->
  0 <= ret <= request r ->
  length buf = length (buffer_ r) ->
  0 <= available (snd (advance B r)) <= Z.of_nat cap /\
  has_capacity B cap (snd (advance B r)).
Proof.
  intros Hcap E Hret Hlen.
  destruct (advance_in_bounds B cap r ret buf h' Hcap E Hret Hlen)
    as [g [Hadv _]].
  rewrite Hadv. cbn [snd]. unfold available, has_capacity.
  cbn [read buffer_ counter_buffer].
  pose proof (request_le_size r) as Hq. destruct Hcap as [Hb Hc].
  split; [lia|]. split; [lia|].
  unfold copied. destruct (is_same_char B); [|assumption].
  rewrite length_app, length_map, length_firstn, length_skipn. lia.
Qed.

(** A read that fails with -1 is stored into [read] as [SIZE_MAX].  For
    [B = unsigned char] the call then returns [true]. *)
Lemma advance_on_error_return (r : GzipFileReader H) buf h' :
  gzread (handle (gz r)) (buffer_ r) (request r) = (-1, buf, h') ->
  fst (advance UnsignedChar r) = Returned true /\
  available (snd (advance UnsignedChar r)) = SIZE_MAX.
Proof.
  intros E. rewrite (advance_unfold UnsignedChar r (-1) buf h' E).
  split; reflexivity.
Qed.

(** For [B = char] the copy of [SIZE_MAX] elements runs off both arrays. *)
Lemma advance_on_error_return_char (r : GzipFileReader H) buf h' :
  gzread (handle (gz r)) (buffer_ r) (request r) = (-1, buf, h') ->
  Z.of_nat (length (counter_buffer r)) < SIZE_MAX ->
  fst (advance PlainChar r) = Undefined.
Proof.
  intros E Hlen. rewrite (advance_unfold PlainChar r (-1) buf h' E).
  cbn zeta. rewrite int_to_size_t_minus_one. cbn [is_same_char].
  unfold copy_n.
  assert (Hd : (SIZE_MAX <=? Z.of_nat (length (counter_buffer r))) = false)
    by (apply Z.leb_gt; exact Hlen).
  rewrite Hd, andb_false_r. reflexivity.
Qed.

(** ** State after a throw *)

(** What every call of [operator()] leaves behind, whatever its outcome. *)
Lemma advance_state (B : elem_type) (r : GzipFileReader H) ret buf h' :
  gzread (handle (gz r)) (buffer_ r) (request r) = (ret, buf, h') ->
  buffer_ (snd (advance B r)) = buf /\
  read (snd (advance B r)) = int_to_size_t ret /\
  handle (gz (snd (advance B r))) = h'.
Proof.
  intros E. rewrite (advance_unfold B r ret buf h' E). cbn zeta.
  destruct (if is_same_char B then _ else _) as [cb|].
  - destruct (int_to_size_t ret =? 0); [destruct (gzeof h')|];
      cbn [negb snd]; repeat split.
  - repeat split.
Qed.

(** A throw comes only from a stored count of 0 with the end-of-file
    indicator clear; the secondary buffer is then as it was. *)
Lemma advance_throws (B : elem_type) (r r' : GzipFileReader H)
      (what : string) ret buf h' :
  gzread (handle (gz r)) (buffer_ r) (request r) = (ret, buf, h') ->
  advance B r = (Threw what, r') ->
  int_to_size_t ret = 0 /\
  gzeof h' = false /\
  read r' = 0 /\
  buffer_ r' = buf /\
  counter_buffer r' = counter_buffer r /\
  what = gzerror h' /\
  handle (gz r') = h'.
Proof.
  intros E. rewrite (advance_unfold B r ret buf h' E). cbn zeta.
  destruct (is_same_char B) eqn:HB.
  - unfold copy_n.
    destruct ((int_to_size_t ret <=? Z.of_nat (length buf)) &&
              (int_to_size_t ret <=? Z.of_nat (length (counter_buffer r))));
      [|discriminate].
    destruct (Z.eqb_spec (int_to_size_t ret) 0) as [Hz|]; [|discriminate].
    rewrite Hz. cbn [Z.to_nat firstn skipn map app].
    destruct (gzeof h') eqn:Heof; cbn [negb]; [discriminate|].
    intros Eq. injection Eq as <- <-. cbn. auto 10.
  - destruct (Z.eqb_spec (int_to_size_t ret) 0) as [Hz|]; [|discriminate].
    destruct (gzeof h') eqn:Heof; cbn [negb]; [discriminate|].
    intros Eq. injection Eq as <- <-. cbn. auto 10.
Qed.

(** ** The secondary buffer *)

Lemma chunk_after_read (B : elem_type) (g : GZFile H) (buf : list uchar)
      (cb : list char) (n : Z) :
  0 <= n <= Z.of_nat (length buf) ->
  chunk B (mkReader g buf (copied B buf n cb) n) =
    map (reinterpret B) (firstn (Z.to_nat n) buf).
Proof.
  intros Hn. unfold chunk, available, buffer, copied.
  cbn [read buffer_ counter_buffer].
  destruct B; cbn [is_same_char reinterpret].
  - rewrite map_id. reflexivity.
  - rewrite firstn_app, length_map, length_firstn.
    replace (Z.to_nat n - Nat.min (Z.to_nat n) (length buf))%nat with O by lia.
    cbn [firstn]. rewrite app_nil_r.
    apply firstn_all2. rewrite length_map, length_firstn. lia.
Qed.

(** X14: with [B = char] a call whose read reports [ret] bytes, [ret]
    between 0 and the request, leaves in the first [ret] places of the
    secondary buffer the first [ret] bytes of the read buffer converted to
    [char]: each is the value in [-128, 127] with the bit pattern of the byte.
    The other places are as they were, and [buffer()] points at the secondary
    buffer.  With [B = unsigned char] the secondary buffer stays empty and
    [buffer()] points at the read buffer.  The constructor gives the
    secondary buffer the capacity in the first case only. *)
Theorem secondary_buffer_copy (cap : nat) (r : GzipFileReader H) ret buf h' :
  gzread (handle (gz r)) (buffer_ r) (request r) = (ret, buf, h') ->
  0 <= ret <= request r ->
  length buf = length (buffer_ r) ->
  (has_capacity PlainChar cap r ->
     let r' := snd (advance PlainChar r) in
     let n := Z.to_nat ret in
     available r' = ret /\
     firstn n (counter_buffer r') = map uchar_to_char (firstn n (buffer_ r')) /\
     skipn n (counter_buffer r') = skipn n (counter_buffer r) /\
     Forall2 (fun (c : char) (b : uchar) =>
                -128 <= c <= 127 /\ c mod 256 = uchar_value b)
       (firstn n (counter_buffer r')) (firstn n (buffer_ r')) /\
     buffer PlainChar r' = counter_buffer r' /\
     buffer_ptr PlainChar = counter_buffer_data /\
     has_capacity PlainChar cap r') /\
  (has_capacity UnsignedChar cap r ->
     let r' := snd (advance UnsignedChar r) in
     counter_buffer r' = [] /\
     buffer UnsignedChar r' = buffer_ r' /\
     buffer_ptr UnsignedChar = buffer__data /\
     has_capacity UnsignedChar cap r') /\
  (forall B path n (m : M) r0,
     new_GzipFileReader B path n m = Returned r0 ->
     length (counter_buffer r0) = if is_same_char B then Z.to_nat n else O).
Proof.
  intros E Hret Hlen. split; [|split].
  - intros Hcap r' n.
    pose proof (available_in_bounds PlainChar cap r ret buf h' Hcap E Hret Hlen)
      as [_ Hcap'].
    destruct (advance_in_bounds PlainChar cap r ret buf h' Hcap E Hret Hlen)
      as [g [Hadv _]].
    subst r'. rewrite Hadv in *. cbn [snd] in *.
    unfold available. cbn [read buffer_ counter_buffer].
    unfold copied. cbn [is_same_char].
    pose proof (request_le_size r) as Hq. destruct Hcap as [Hb Hc].
    cbn [is_same_char] in Hc.
    assert (Hfl : length (map uchar_to_char (firstn n buf)) = n).
    { rewrite length_map, length_firstn. subst n. lia. }
    assert (Hfirst : firstn n (map uchar_to_char (firstn n buf)
                               ++ skipn n (counter_buffer r))
                     = map uchar_to_char (firstn n buf)).
    { rewrite firstn_app, Hfl, Nat.sub_diag. cbn [firstn].
      rewrite app_nil_r. apply firstn_all2. lia. }
    fold n. split; [reflexivity|]. split; [exact Hfirst|]. split.
    { rewrite skipn_app, Hfl, Nat.sub_diag. cbn [skipn].
      rewrite skipn_all2 by lia. reflexivity. }
    split.
    { rewrite Hfirst. clear. induction (firstn n buf) as [|b l IH]; cbn [map].
      - constructor.
      - constructor; [apply uchar_to_char_bits | exact IH]. }
    split; [reflexivity|]. split; [reflexivity|]. exact Hcap'.
  - intros Hcap r'.
    pose proof (available_in_bounds UnsignedChar cap r ret buf h'
                  Hcap E Hret Hlen) as [_ Hcap'].
    fold r' in Hcap'. destruct Hcap' as [Hb' Hc']. cbn [is_same_char] in Hc'.
    repeat split; try assumption; try reflexivity.
    apply length_zero_iff_nil. exact Hc'.
  - intros B path n m r0 Hnew. apply (new_has_capacity B path n m r0 Hnew).
Qed.

(** ** Order of the library calls *)

(** C7: one call of [operator()] performs one [gzread] and then, only if the
    count it stored is zero, one [gzeof]; with a positive count nothing
    follows the read. *)
Theorem eof_only_after_empty_read (B : elem_type) (r : GzipFileReader H) :
  let r' := snd (advance B r) in
  exists tail,
    calls (gz r') = calls (gz r) ++ CallRead (request r) :: tail /\
    available r' =
      int_to_size_t (fst (fst (gzread (handle (gz r)) (buffer_ r) (request r)))) /\
    (In CallEof tail -> available r' = 0) /\
    (0 < available r' -> tail = []) /\
    (available r' = 0 -> exists rest, tail = CallEof :: rest).
Proof.
  destruct (gzread (handle (gz r)) (buffer_ r) (request r))
    as [[ret buf] h'] eqn:E.
  rewrite (advance_unfold B r ret buf h' E). cbn zeta. cbn [fst].
  assert (Hcopy0 : int_to_size_t ret = 0 ->
            (if is_same_char B
             then copy_n buf (int_to_size_t ret) (counter_buffer r)
             else Some (counter_buffer r)) = Some (counter_buffer r)).
  { intros ->. destruct (is_same_char B); [apply copy_n_zero | reflexivity]. }
  destruct (Z.eqb_spec (int_to_size_t ret) 0) as [Hz | Hnz].
  - rewrite (Hcopy0 Hz).
    destruct (gzeof h'); cbn [negb snd gz calls read]; unfold available;
      cbn [read]; rewrite <- app_assoc; cbn [app];
      eexists; (split; [reflexivity|]);
      repeat split; try (intros; lia); try (intros; assumption);
      intros _; eexists; reflexivity.
  - destruct (if is_same_char B then _ else _) as [cb|];
      cbn [snd gz calls read]; unfold available; cbn [read];
      exists []; repeat split; try (intros; contradiction);
      try (intros Hin; destruct Hin).
Qed.

(** ** The observers *)

(** C10: a run made only of [buffer()] and [available()] calls, in any number
    and order, ends in the state it started from; every [buffer()] in it
    returns the same pointer to the same array and every [available()] the
    same count, those of the starting state. *)
Theorem observers_are_pure (B : elem_type) (ms : list method)
        (r : GzipFileReader H) :
  forallb is_observer ms = true ->
  invoke_all B ms r =
    (map (fun m =>
            match m with
            | m_buffer => Returned (v_pointer B (buffer_ptr B) (buffer B r))
            | _ => Returned (v_size B (available r))
            end) ms,
     r).
Proof.
  induction ms as [|m ms IH]; intros Hobs.
  - reflexivity.
  - cbn [forallb] in Hobs. apply andb_prop in Hobs as [Hm Hms].
    specialize (IH Hms).
    destruct m; [discriminate Hm | |];
      cbn [invoke_all invoke map]; rewrite IH; reflexivity.
Qed.

(** ** Reading a whole stream *)

Section ValidStream.

Variable decodes : H -> list uchar -> Prop.
Hypothesis zlib_ok : stream_contract decodes.

Lemma read_all_valid (B : elem_type) (cap : nat) :
  0 < Z.of_nat cap <= INT_MAX ->
  forall (fuel : nat) (c : list uchar) (r : GzipFileReader H),
    (length c < fuel)%nat ->
    has_capacity B cap r ->
    decodes (handle (gz r)) c ->
    read_all B fuel r = Some (Returned (map (reinterpret B) c)).
Proof.
  intros Hcap. induction fuel as [|fuel IH]; intros c r Hfuel Hsz Hdec.
  - lia.
  - assert (Hreq : request r = Z.of_nat cap).
    { unfold request. destruct Hsz as [-> _].
      apply size_t_to_unsigned_small. lia. }
    destruct (read_step decodes zlib_ok (handle (gz r)) c (buffer_ r)
                (request r) Hdec)
      as (n & h' & E & Hn & Hnlen & Hdec' & Hend).
    { lia. }
    { destruct Hsz as [-> _]. lia. }
    set (buf := firstn n c ++ skipn n (buffer_ r)) in *.
    assert (Hlen : length buf = length (buffer_ r)).
    { subst buf. rewrite length_app, length_firstn, length_skipn.
      destruct Hsz as [Hb _]. lia. }
    assert (Hfirst : firstn n buf = firstn n c).
    { subst buf. rewrite firstn_app, length_firstn.
      replace (n - Nat.min n (length c))%nat with O by lia.
      cbn [firstn]. rewrite app_nil_r. apply firstn_all2.
      rewrite length_firstn. lia. }
    destruct (advance_in_bounds B cap r (Z.of_nat n) buf h' Hsz E)
      as (g & Hadv & Hg); [lia | exact Hlen |].
    pose proof (available_in_bounds B cap r (Z.of_nat n) buf h' Hsz E)
      as [_ Hsz']; [lia | exact Hlen |].
    rewrite Hadv in Hsz'. cbn [snd] in Hsz'.
    assert (Hchunk : chunk B (mkReader g buf
                                (copied B buf (Z.of_nat n) (counter_buffer r))
                                (Z.of_nat n))
                     = map (reinterpret B) (firstn n c)).
    { rewrite chunk_after_read.
      - rewrite Nat2Z.id, Hfirst. reflexivity.
      - destruct Hsz as [Hb _]. lia. }
    cbn [read_all]. rewrite Hadv.
    destruct n as [|n'].
    + destruct (Hend eq_refl) as [-> Heof].
      cbn [Z.of_nat Z.ltb Z.compare]. rewrite Heof.
      cbn [Z.of_nat] in Hchunk. rewrite Hchunk. reflexivity.
    + assert (Hpos : (0 <? Z.of_nat (S n')) = true) by (apply Z.ltb_lt; lia).
      rewrite Hpos.
      rewrite (IH (skipn (S n') c)).
      * rewrite Hchunk, <- map_app, firstn_skipn. reflexivity.
      * rewrite length_skipn. lia.
      * exact Hsz'.
      * cbn [gz]. rewrite Hg. exact Hdec'.
Qed.

(** X12: on a well-formed stream, with a capacity between 1 and [INT_MAX],
    calling [operator()] until it returns [false] and joining what
    [buffer()] and [available()] expose after each call gives the whole
    decompressed content, each byte as a [B]; one call more than the content
    has bytes is always enough. *)
Theorem read_all_reconstructs (B : elem_type) (path : string) (n : Z)
        (m : M) (r : GzipFileReader H) (content : list uchar) :
  0 < n <= INT_MAX ->
  new_GzipFileReader B path n m = Returned r ->
  decodes (handle (gz r)) content ->
  forall fuel : nat,
    (length content < fuel)%nat ->
    read_all B fuel r = Some (Returned (map (reinterpret B) content)).
Proof.
  intros Hcap Hnew Hdec fuel Hfuel.
  apply (read_all_valid B (Z.to_nat n)); [lia | exact Hfuel | | exact Hdec].
  exact (new_has_capacity B path n m r Hnew).
Qed.

End ValidStream.

End ReaderFacts.

(** * The simulated zlib *)

Lemma firstn_length_firstn {A : Type} (k : nat) (l : list A) :
  firstn (length (firstn k l)) l = firstn k l.
Proof.
  rewrite length_firstn. destruct (Nat.le_ge_cases k (length l)) as [Hk | Hk].
  - rewrite Nat.min_l by exact Hk. reflexivity.
  - rewrite Nat.min_r by exact Hk.
    rewrite !firstn_all2; [reflexivity | exact Hk | apply Nat.le_refl].
Qed.

(** On a complete gzip file the simulated zlib keeps the promise made for
    well-formed streams. *)
Lemma sim_stream_contract (d : sim_disk) :
  stream_contract (lib := sim_zlib d) sim_decodes.
Proof.
  constructor. intros h c buf len [Hp Hf] Hlen Hbuf.
  cbn [gzread gzeof sim_zlib]. unfold sim_gzread.
  assert (H1 : (INT_MAX <? len) = false) by (apply Z.ltb_ge; lia).
  assert (H2 : (len =? 0) = false) by (apply Z.eqb_neq; lia).
  rewrite H1, H2, Hp, Hf.
  destruct c as [|b c'].
  - exists O, (mkSim [] CleanEnd true (errmsg h)).
    cbn [firstn skipn app length]. repeat split; try reflexivity; lia.
  - set (c := b :: c') in *.
    exists (length (firstn (Z.to_nat len) c)),
           (mkSim (skipn (length (firstn (Z.to_nat len) c)) c) CleanEnd
              (past h) (errmsg h)).
    rewrite firstn_length_firstn.
    assert (Hn : length (firstn (Z.to_nat len) c)
                 = Nat.min (Z.to_nat len) (length c))
      by apply length_firstn.
    subst c. cbn [length] in Hn.
    repeat split; try reflexivity; try lia.
    rewrite Hn. cbn [length]. lia.
Qed.

(** * The reader on concrete files *)

(** With 1024 bytes of heap, a reader of capacity 4 is built on each file of
    the disk. *)
Lemma new_on_example (B : elem_type) :
  new_GzipFileReader (lib := example_zlib) B "letters.gz" 4 1024 =
    Returned (fresh_reader B (bytes "ABCDEFGHIJ") CleanEnd 4) /\
  new_GzipFileReader (lib := example_zlib) B "high.gz" 4 1024 =
    Returned (fresh_reader B [x41; xe9; xff] CleanEnd 4) /\
  new_GzipFileReader (lib := example_zlib) B "corrupt.gz" 4 1024 =
    Returned (fresh_reader B [] DataError 4).
Proof. destruct B; repeat split. Qed.

(** The ten letters read four at a time, as [unsigned char]. *)
Lemma read_all_reconstructs_witness :
  read_all (lib := example_zlib) UnsignedChar 11
    (fresh_reader UnsignedChar (bytes "ABCDEFGHIJ") CleanEnd 4)
  = Some (Returned (map (reinterpret UnsignedChar) (bytes "ABCDEFGHIJ"))).
Proof.
  apply (read_all_reconstructs (lib := example_zlib) sim_decodes
           (sim_stream_contract example_disk) UnsignedChar "letters.gz" 4
           1024).
  - unfold INT_MAX. simpl. lia.
  - reflexivity.
  - split; reflexivity.
  - simpl. lia.
Defined.

(** An empty stream: the first call returns [false] with nothing
    available. *)
Example empty_stream_first_call :
  let s := advance (lib := example_zlib) UnsignedChar
             (fresh_reader UnsignedChar [] CleanEnd 4) in
  fst s = Returned false /\ available (snd s) = 0.
Proof. split; reflexivity. Qed.

(** A capacity of 0 asks [gzread] for nothing: it answers 0 without setting
    the end-of-file indicator, and the first call throws. *)
Example zero_capacity_first_call :
  fst (advance (lib := example_zlib) UnsignedChar
         (fresh_reader UnsignedChar (bytes "ABCDEFGHIJ") CleanEnd 0))
  = Threw String.EmptyString.
Proof. reflexivity. Qed.

(** The same protocol with [B = char]: bytes above 127 come out negative. *)
Example read_all_signed :
  read_all (lib := example_zlib) PlainChar 4
    (fresh_reader PlainChar [x41; xe9; xff] CleanEnd 2)
  = Some (Returned [65; -23; -1]).
Proof. reflexivity. Qed.

(** The chunks of the ten letters, call by call. *)
Example chunks_of_letters :
  let r0 := fresh_reader UnsignedChar (bytes "ABCDEFGHIJ") CleanEnd 4 in
  let s1 := advance (lib := example_zlib) UnsignedChar r0 in
  let s2 := advance (lib := example_zlib) UnsignedChar (snd s1) in
  let s3 := advance (lib := example_zlib) UnsignedChar (snd s2) in
  let s4 := advance (lib := example_zlib) UnsignedChar (snd s3) in
  (fst s1, chunk UnsignedChar (snd s1)) = (Returned true, bytes "ABCD") /\
  (fst s2, chunk UnsignedChar (snd s2)) = (Returned true, bytes "EFGH") /\
  (fst s3, chunk UnsignedChar (snd s3)) = (Returned true, bytes "IJ") /\
  (fst s4, chunk UnsignedChar (snd s4)) = (Returned false, []).
Proof. repeat split. Qed.

Lemma advance_outcome_witness :
  let r := fresh_reader PlainChar (bytes "ABCDEFGHIJ") CleanEnd 4 in
  let o := fst (advance (lib := example_zlib) PlainChar r) in
  (0 < 4 -> o = Returned true) /\
  (4 = 0 -> false = true -> o = Returned false) /\
  (4 = 0 -> false = false -> o = Threw String.EmptyString) /\
  ((o = Returned true /\ 0 < 4) \/
   (o = Returned false /\ 4 = 0 /\ false = true) \/
   (o = Threw String.EmptyString /\ 4 = 0 /\ false = false)) /\
  ~ (o = Returned true /\ o = Returned false) /\
  ~ (o = Returned true /\ o = Threw String.EmptyString) /\
  ~ (o = Returned false /\ o = Threw String.EmptyString).
Proof.
  apply (advance_outcome (lib := example_zlib) PlainChar 4
           (fresh_reader PlainChar (bytes "ABCDEFGHIJ") CleanEnd 4)
           4 (bytes "ABCD")
           (mkSim (bytes "EFGHIJ") CleanEnd false String.EmptyString)).
  - split; reflexivity.
  - reflexivity.
  - vm_compute. split; discriminate.
  - reflexivity.
Defined.

(** C3: on a file whose compressed data is corrupt, [gzread] answers -1; with
    [B = unsigned char] and a capacity of 4 the call of [operator()] returns
    [true] and [available()] is then [SIZE_MAX], far above the capacity. *)
Theorem available_after_failed_read :
  let r := fresh_reader UnsignedChar [] DataError 4 in
  new_GzipFileReader (lib := example_zlib) UnsignedChar "corrupt.gz" 4 1024
    = Returned r /\
  fst (fst (gzread (Zlib := example_zlib) (handle (gz r)) (buffer_ r)
              (request r))) = -1 /\
  fst (advance (lib := example_zlib) UnsignedChar r) = Returned true /\
  available (snd (advance (lib := example_zlib) UnsignedChar r))
    = 18446744073709551615 /\
  ~ (0 <= available (snd (advance (lib := example_zlib) UnsignedChar r))
     <= Z.of_nat (length (buffer_ r))).
Proof.
  cbv zeta. split; [reflexivity|]. split; [reflexivity|].
  split; [reflexivity|]. split; [reflexivity|].
  intros [_ Hle]. vm_compute in Hle. apply Hle. reflexivity.
Qed.

(** C2: on the same file the failed read produces no byte and leaves the
    end-of-file indicator clear, and yet the call of [operator()] does not
    throw: with [B = unsigned char] it returns [true], with [B = char] it
    runs off the arrays. *)
Theorem failed_read_is_not_reported :
  let r := fresh_reader UnsignedChar [] DataError 4 in
  let reply :=
    gzread (Zlib := example_zlib) (handle (gz r)) (buffer_ r) (request r) in
  fst (fst reply) = -1 /\
  snd (fst reply) = buffer_ r /\
  gzeof (Zlib := example_zlib) (snd reply) = false /\
  fst (advance (lib := example_zlib) UnsignedChar r) = Returned true /\
  (forall what,
     fst (advance (lib := example_zlib) UnsignedChar r) <> Threw what) /\
  fst (advance (lib := example_zlib) PlainChar
         (fresh_reader PlainChar [] DataError 4)) = Undefined.
Proof.
  cbv zeta. split; [reflexivity|]. split; [reflexivity|].
  split; [reflexivity|]. split; [reflexivity|].
  split; [intros what; discriminate | reflexivity].
Qed.

(** C6: with [B = char], after the failed read no byte has been produced, but
    the count handed to [std::copy_n] is [SIZE_MAX]: the copy runs off both
    arrays of four elements. *)
Theorem copy_after_failed_read :
  let r := fresh_reader PlainChar [] DataError 4 in
  let reply :=
    gzread (Zlib := example_zlib) (handle (gz r)) (buffer_ r) (request r) in
  fst (fst reply) = -1 /\
  snd (fst reply) = buffer_ r /\
  int_to_size_t (fst (fst reply)) = 18446744073709551615 /\
  copy_n (snd (fst reply)) (int_to_size_t (fst (fst reply)))
    (counter_buffer r) = None /\
  fst (advance (lib := example_zlib) PlainChar r) = Undefined.
Proof.
  cbv zeta. repeat split.
Qed.

(** C5, counterexample: a file that exists and has no gzip header is opened
    without complaint, so not every such path makes the constructor throw. *)
Lemma headerless_file_is_opened :
  ~ (forall (B : elem_type) (path : string) (n free : Z),
       (lookup_file example_disk path = None \/
        exists f, lookup_file example_disk path = Some f /\
                  has_gzip_header f = false) ->
       exists what,
         new_GzipFileReader (lib := example_zlib) B path n free = Threw what).
Proof.
  intros Hclaim.
  destruct (Hclaim UnsignedChar "notes.txt"%string 4 1024) as [what Hw].
  - right. exists (PlainBytes (bytes "plain text")). split; reflexivity.
  - discriminate Hw.
Qed.

(** What the reader then delivers is the file itself. *)
Example headerless_file_is_read :
  read_all (lib := example_zlib) UnsignedChar 4
    (fresh_reader UnsignedChar (bytes "plain text") CleanEnd 4)
  = Some (Returned (bytes "plain text")).
Proof. reflexivity. Qed.

Lemma construction_follows_gzopen_witness :
  new_GzipFileReader (lib := example_zlib) PlainChar "missing.gz" 4 1024 =
    Threw "failed to open file at 'missing.gz'" /\
  forall r,
    new_GzipFileReader (lib := example_zlib) PlainChar "missing.gz" 4 1024
      <> Returned r.
Proof.
  apply (proj1 (construction_follows_gzopen (lib := example_zlib)
                  PlainChar "missing.gz" 4 1024)).
  reflexivity.
Defined.

(** C9, counterexample: on a file that [gzopen] opens, a [buffer_size] of
    [SIZE_MAX] makes the constructor throw, so construction can fail although
    the open did not. *)
Lemma construction_fails_with_file_open :
  ~ (forall (B : elem_type) (path : string) (n free : Z),
       (exists what,
          new_GzipFileReader (lib := example_zlib) B path n free = Threw what)
       <-> gzopen (Zlib := example_zlib) path = None).
Proof.
  intros Hclaim.
  assert (Hnone : gzopen (Zlib := example_zlib) "letters.gz" = None).
  { apply (Hclaim UnsignedChar "letters.gz"%string 18446744073709551615 1024).
    exists length_error_what. reflexivity. }
  discriminate Hnone.
Qed.

(** So does a heap too small for the buffers. *)
Example construction_out_of_memory :
  new_GzipFileReader (lib := example_zlib) PlainChar "letters.gz" 600 1024 =
    Threw bad_alloc_what.
Proof. reflexivity. Qed.

Lemma secondary_buffer_copy_witness :
  let r := fresh_reader PlainChar [x41; xe9; xff] CleanEnd 2 in
  let r' := snd (advance (lib := example_zlib) PlainChar r) in
  available r' = 2 /\
  firstn 2 (counter_buffer r') = map uchar_to_char (firstn 2 (buffer_ r')) /\
  skipn 2 (counter_buffer r') = skipn 2 (counter_buffer r) /\
  Forall2 (fun (c : char) (b : uchar) =>
             -128 <= c <= 127 /\ c mod 256 = uchar_value b)
    (firstn 2 (counter_buffer r')) (firstn 2 (buffer_ r')) /\
  buffer PlainChar r' = counter_buffer r' /\
  buffer_ptr PlainChar = counter_buffer_data /\
  has_capacity PlainChar 2 r'.
Proof.
  cbv zeta.
  refine (proj1 (secondary_buffer_copy (lib := example_zlib) 2
                   (fresh_reader PlainChar [x41; xe9; xff] CleanEnd 2)
                   2 [x41; xe9]
                   (mkSim [xff] CleanEnd false String.EmptyString)
                   _ _ _) _).
  - reflexivity.
  - vm_compute. split; discriminate.
  - reflexivity.
  - split; reflexivity.
Defined.

Lemma available_after_construction_witness :
  available (fresh_reader UnsignedChar (bytes "ABCDEFGHIJ") CleanEnd 4) = 0 /\
  chunk UnsignedChar (fresh_reader UnsignedChar (bytes "ABCDEFGHIJ") CleanEnd 4)
    = [].
Proof.
  apply (available_after_construction (lib := example_zlib) UnsignedChar
           "letters.gz" 4 1024).
  reflexivity.
Defined.

Lemma observers_are_pure_witness :
  let r := snd (advance (lib := example_zlib) UnsignedChar
                  (fresh_reader UnsignedChar (bytes "ABCDEFGHIJ") CleanEnd 4)) in
  invoke_all (lib := example_zlib) UnsignedChar
    [m_buffer; m_available; m_available; m_buffer] r
  = ([Returned (v_pointer UnsignedChar buffer__data (bytes "ABCD"));
      Returned (v_size UnsignedChar 4);
      Returned (v_size UnsignedChar 4);
      Returned (v_pointer UnsignedChar buffer__data (bytes "ABCD"))],
     r).
Proof.
  cbv zeta.
  apply (observers_are_pure (lib := example_zlib) UnsignedChar
           [m_buffer; m_available; m_available; m_buffer]).
  reflexivity.
Defined.

Lemma construction_fails_iff_open_or_buffers_fail_witness :
  new_GzipFileReader (lib := example_zlib) PlainChar "letters.gz" 0 0 =
    Returned (mkReader
                (mkGZFile
                   (mkSim (bytes "ABCDEFGHIJ") CleanEnd false String.EmptyString)
                   [])
                [] [] 0).
Proof.
  apply (proj2 (proj2 (construction_fails_iff_open_or_buffers_fail
                         (lib := example_zlib) PlainChar "letters.gz" 7 0))).
  reflexivity.
Defined.

Lemma eof_only_after_empty_read_witness :
  let r := fresh_reader UnsignedChar [] CleanEnd 4 in
  let r' := snd (advance (lib := example_zlib) UnsignedChar r) in
  exists tail,
    calls (gz r') = calls (gz r) ++ CallRead (request r) :: tail /\
    available r' =
      int_to_size_t
        (fst (fst (gzread (Zlib := example_zlib) (handle (gz r)) (buffer_ r)
                     (request r)))) /\
    (In CallEof tail -> available r' = 0) /\
    (0 < available r' -> tail = []) /\
    (available r' = 0 -> exists rest, tail = CallEof :: rest).
Proof.
  exact (eof_only_after_empty_read (lib := example_zlib) UnsignedChar
           (fresh_reader UnsignedChar [] CleanEnd 4)).
Defined.

(** The calls made while reading the ten letters: four reads, and one
    end-of-file query after the read that delivered nothing. *)
Example calls_on_letters :
  let r0 := fresh_reader UnsignedChar (bytes "ABCDEFGHIJ") CleanEnd 4 in
  let step r := snd (advance (lib := example_zlib) UnsignedChar r) in
  calls (gz (step (step (step (step r0))))) =
    [CallRead 4; CallRead 4; CallRead 4; CallRead 4; CallEof].
Proof. reflexivity. Qed.

(** * Whole runs of calls *)

Lemma copy_n_keeps_length (src : list uchar) (count : Z) (dst out : list char) :
  copy_n src count dst = Some out -> length out = length dst.
Proof.
  unfold copy_n.
  destruct (count <=? Z.of_nat (length src)) eqn:Hs; [|discriminate].
  destruct (count <=? Z.of_nat (length dst)) eqn:Hd; [|discriminate].
  cbn [andb]. intros Hout. injection Hout as <-.
  apply Z.leb_le in Hs. apply Z.leb_le in Hd.
  rewrite length_app, length_map, length_firstn, length_skipn. lia.
Qed.

Lemma ordered_after_app (prev : option libcall) (l1 l2 : list libcall) :
  ordered_after prev (l1 ++ l2) =
    ordered_after prev l1 && ordered_after (last_call prev l1) l2.
Proof.
  revert prev. induction l1 as [|c l1 IH]; intros prev.
  - reflexivity.
  - cbn [app ordered_after last_call fold_left].
    rewrite IH, andb_assoc. reflexivity.
Qed.

Lemma count_reads_app (l1 l2 : list libcall) :
  count_reads (l1 ++ l2) = (count_reads l1 + count_reads l2)%nat.
Proof. unfold count_reads. rewrite filter_app, length_app. reflexivity. Qed.

Section Runs.

Context {H : Type} {lib : Zlib H}.

(** What one call of [operator()] adds to the history of the handle. *)
Lemma advance_history (B : elem_type) (r : GzipFileReader H) :
  exists tail,
    calls (gz (snd (advance B r))) =
      calls (gz r) ++ CallRead (request r) :: tail /\
    (tail = [] \/ tail = [CallEof] \/ tail = [CallEof; CallError]).
Proof.
  destruct (gzread (handle (gz r)) (buffer_ r) (request r))
    as [[ret buf] h'] eqn:E.
  rewrite (advance_unfold B r ret buf h' E). cbn zeta.
  destruct (if is_same_char B then _ else _) as [cb|].
  - destruct (int_to_size_t ret =? 0).
    + destruct (gzeof h'); cbn [negb snd gz calls];
        rewrite <- app_assoc; cbn [app]; eexists; split;
        [reflexivity | auto | reflexivity | auto].
    + cbn [snd gz calls]. exists []. auto.
  - cbn [snd gz calls]. exists []. auto.
Qed.

Lemma invoke_state (B : elem_type) (m : method) (r : GzipFileReader H) :
  snd (invoke B m r) = if is_advance m then snd (advance B r) else r.
Proof.
  destruct m; cbn [invoke is_advance]; try reflexivity.
  destruct (advance B r) as [[b | what |] r']; reflexivity.
Qed.

(** A property of the reader that every [operator()] keeps is kept by every
    run of calls. *)
Lemma invoke_all_invariant (B : elem_type) (P : GzipFileReader H -> Prop) :
  (forall r, P r -> P (snd (advance B r))) ->
  forall ms r, P r -> P (snd (invoke_all B ms r)).
Proof.
  intros Hstep. induction ms as [|m ms IH]; intros r Hr.
  - exact Hr.
  - cbn [invoke_all].
    assert (Hm : P (snd (invoke B m r))).
    { rewrite invoke_state. destruct (is_advance m); auto. }
    destruct (invoke B m r) as [[v | what |] r1]; cbn [snd] in Hm.
    + specialize (IH r1 Hm).
      destruct (invoke_all B ms r1) as [vs r2]. exact IH.
    + exact Hm.
    + exact Hm.
Qed.

Lemma advance_keeps_capacity (B : elem_type) (cap : nat)
      (r : GzipFileReader H) :
  keeps_buffer_length ->
  has_capacity B cap r ->
  has_capacity B cap (snd (advance B r)).
Proof.
  intros Hlib [Hb Hc].
  pose proof (Hlib (handle (gz r)) (buffer_ r) (request r)
                (request_le_size r)) as Hlen.
  destruct (gzread (handle (gz r)) (buffer_ r) (request r))
    as [[ret buf] h'] eqn:E.
  cbn [fst snd] in Hlen.
  rewrite (advance_unfold B r ret buf h' E). cbn zeta.
  unfold has_capacity.
  destruct (is_same_char B) eqn:HB.
  - destruct (copy_n buf (int_to_size_t ret) (counter_buffer r))
      as [cb|] eqn:Hcopy.
    + apply copy_n_keeps_length in Hcopy.
      destruct (int_to_size_t ret =? 0); [destruct (gzeof h')|];
        cbn [negb snd buffer_ counter_buffer]; split; congruence.
    + cbn [snd buffer_ counter_buffer]. split; congruence.
  - destruct (int_to_size_t ret =? 0); [destruct (gzeof h')|];
      cbn [negb snd buffer_ counter_buffer]; split; congruence.
Qed.

(** X1: the two vectors are never resized.  Whatever sequence of
    [operator()], [buffer()] and [available()] calls is run, and however the
    calls end, the read buffer keeps the size given to the constructor and
    the secondary buffer keeps that size for [B = char] and stays empty
    otherwise. *)
Theorem capacity_is_invariant (B : elem_type) (cap : nat) (ms : list method)
        (r : GzipFileReader H) :
  keeps_buffer_length ->
  has_capacity B cap r ->
  has_capacity B cap (snd (invoke_all B ms r)).
Proof.
  intros Hlib Hcap.
  apply (invoke_all_invariant B (has_capacity B cap)); [|exact Hcap].
  intros r0. apply advance_keeps_capacity. exact Hlib.
Qed.

(** X2: [gzread] is never asked for more bytes than the read buffer holds,
    nor for more than an [unsigned] can express: along any run of calls every
    read in the history of the handle has a length between 0 and the
    capacity. *)
Theorem requests_fit_the_buffer (B : elem_type) (cap : nat)
        (ms : list method) (r : GzipFileReader H) :
  keeps_buffer_length ->
  has_capacity B cap r ->
  Forall (request_within cap) (calls (gz r)) ->
  Forall (request_within cap) (calls (gz (snd (invoke_all B ms r)))).
Proof.
  intros Hlib Hcap Hhist.
  apply (invoke_all_invariant B
           (fun r0 => has_capacity B cap r0 /\
                      Forall (request_within cap) (calls (gz r0))));
    [|split; assumption].
  intros r0 [Hcap0 Hhist0]. split.
  - apply advance_keeps_capacity; assumption.
  - destruct (advance_history B r0) as (tail & -> & Htail).
    apply Forall_app. split; [exact Hhist0|].
    constructor.
    + cbn [request_within]. pose proof (request_le_size r0).
      pose proof (request_lt_2_32 r0). destruct Hcap0 as [<- _]. lia.
    + destruct Htail as [-> | [-> | ->]]; repeat constructor.
Qed.

(** X3: on one handle the library calls always come in the order read,
    end-of-file query, error query.  Along any run of calls an end-of-file
    query comes only right after a read and an error query only right after
    an end-of-file query. *)
Theorem library_calls_are_ordered (B : elem_type) (ms : list method)
        (r : GzipFileReader H) :
  ordered_after None (calls (gz r)) = true ->
  ordered_after None (calls (gz (snd (invoke_all B ms r)))) = true.
Proof.
  apply (invoke_all_invariant B
           (fun r0 => ordered_after None (calls (gz r0)) = true)).
  intros r0 Hord.
  destruct (advance_history B r0) as (tail & -> & Htail).
  rewrite ordered_after_app, Hord. cbn [andb ordered_after may_follow].
  destruct Htail as [-> | [-> | ->]]; reflexivity.
Qed.

(** X4: one call of [operator()] is one [gzread], never a retry.  After a
    run of calls the number of reads in the history has grown by the number
    of [operator()] calls that were executed (the run stops at the first call
    that does not return). *)
Theorem one_read_per_call (B : elem_type) (ms : list method)
        (r : GzipFileReader H) :
  let run := invoke_all B ms r in
  count_reads (calls (gz (snd run))) =
    (count_reads (calls (gz r))
     + length (filter is_advance (firstn (length (fst run)) ms)))%nat.
Proof.
  cbv zeta. revert r. induction ms as [|m ms IH]; intros r.
  - cbn. lia.
  - cbn [invoke_all].
    assert (Hm : count_reads (calls (gz (snd (invoke B m r)))) =
                 (count_reads (calls (gz r))
                  + (if is_advance m then 1 else 0))%nat).
    { rewrite invoke_state. destruct (is_advance m); [|lia].
      destruct (advance_history B r) as (tail & -> & Htail).
      rewrite count_reads_app.
      destruct Htail as [-> | [-> | ->]]; reflexivity. }
    destruct (invoke B m r) as [[v | what |] r1]; cbn [snd] in Hm.
    + specialize (IH r1).
      destruct (invoke_all B ms r1) as [vs r2]. cbn [fst snd] in *.
      cbn [length firstn filter]. rewrite IH, Hm.
      destruct (is_advance m); cbn [length]; lia.
    + cbn [fst snd length firstn filter]. rewrite Hm.
      destruct (is_advance m); cbn [length]; lia.
    + cbn [fst snd length firstn filter]. rewrite Hm.
      destruct (is_advance m); cbn [length]; lia.
Qed.

End Runs.

(** * One call on a well-formed stream *)

Section StreamSteps.

Context {H : Type} {lib : Zlib H}.
Variable decodes : H -> list uchar -> Prop.
Hypothesis zlib_ok : stream_contract decodes.

Lemma valid_step (B : elem_type) (cap : nat) (r : GzipFileReader H)
      (c : list uchar) :
  0 < Z.of_nat cap <= INT_MAX ->
  has_capacity B cap r ->
  decodes (handle (gz r)) c ->
  exists n : nat,
    (n <= length c)%nat /\ (n <= cap)%nat /\ (n = O -> c = []) /\
    fst (advance B r) = Returned (negb (Nat.eqb n O)) /\
    available (snd (advance B r)) = Z.of_nat n /\
    chunk B (snd (advance B r)) = map (reinterpret B) (firstn n c) /\
    decodes (handle (gz (snd (advance B r)))) (skipn n c) /\
    has_capacity B cap (snd (advance B r)).
Proof.
  intros Hcap Hsz Hdec.
  assert (Hreq : request r = Z.of_nat cap).
  { unfold request. destruct Hsz as [-> _].
    apply size_t_to_unsigned_small. lia. }
  destruct (read_step decodes zlib_ok (handle (gz r)) c (buffer_ r)
              (request r) Hdec)
    as (n & h' & E & Hn & Hnlen & Hdec' & Hend).
  { lia. }
  { destruct Hsz as [-> _]. lia. }
  set (buf := firstn n c ++ skipn n (buffer_ r)) in *.
  assert (Hlen : length buf = length (buffer_ r)).
  { subst buf. rewrite length_app, length_firstn, length_skipn.
    destruct Hsz as [Hb _]. lia. }
  assert (Hfirst : firstn n buf = firstn n c).
  { subst buf. rewrite firstn_app, length_firstn.
    replace (n - Nat.min n (length c))%nat with O by lia.
    cbn [firstn]. rewrite app_nil_r. apply firstn_all2.
    rewrite length_firstn. lia. }
  destruct (advance_in_bounds B cap r (Z.of_nat n) buf h' Hsz E)
    as (g & Hadv & Hg); [lia | exact Hlen |].
  pose proof (available_in_bounds B cap r (Z.of_nat n) buf h' Hsz E)
    as [_ Hsz']; [lia | exact Hlen |].
  exists n. rewrite Hadv in *. cbn [fst snd] in *.
  split; [exact Hn|]. split; [lia|]. split; [intros Hz; apply Hend, Hz|].
  split.
  { destruct n as [|n'].
    - destruct (Hend eq_refl) as [_ Heof]. cbn. rewrite Heof. reflexivity.
    - assert (Hpos : (0 <? Z.of_nat (S n')) = true) by (apply Z.ltb_lt; lia).
      rewrite Hpos. reflexivity. }
  split; [reflexivity|]. split.
  { rewrite chunk_after_read.
    - rewrite Nat2Z.id, Hfirst. reflexivity.
    - destruct Hsz as [Hb _]. lia. }
  split; [|exact Hsz'].
  cbn [gz]. rewrite Hg. exact Hdec'.
Qed.

(** X5: on a well-formed stream one call of [operator()] never throws and
    never runs off an array.  It returns [true] exactly when bytes are left,
    exposing a non-empty prefix of what is left, of at most the capacity;
    it returns [false] with nothing available exactly when nothing is left.
    The handle is then positioned on the rest of the stream. *)
Theorem advance_on_valid_stream (B : elem_type) (cap : nat)
        (r : GzipFileReader H) (c : list uchar) :
  0 < Z.of_nat cap <= INT_MAX ->
  has_capacity B cap r ->
  decodes (handle (gz r)) c ->
  let r' := snd (advance B r) in
  (fst (advance B r) = Returned true <-> c <> []) /\
  (fst (advance B r) = Returned false <-> c = []) /\
  exists front rest,
    c = front ++ rest /\
    chunk B r' = map (reinterpret B) front /\
    Z.of_nat (length front) = available r' /\
    (length front <= cap)%nat /\
    (c <> [] -> front <> []) /\
    decodes (handle (gz r')) rest.
Proof.
  intros Hcap Hsz Hdec r'.
  destruct (valid_step B cap r c Hcap Hsz Hdec)
    as (n & Hn & Hncap & Hz & Ho & Hav & Hch & Hdec' & _).
  subst r'. rewrite Ho.
  assert (Hfl : length (firstn n c) = n) by (rewrite length_firstn; lia).
  split; [|split].
  - destruct n as [|n']; cbn [Nat.eqb negb].
    + rewrite (Hz eq_refl). split; [discriminate | congruence].
    + split; [|reflexivity]. intros _ ->. cbn [length] in Hn. lia.
  - destruct n as [|n']; cbn [Nat.eqb negb].
    + rewrite (Hz eq_refl). split; reflexivity.
    + split; [discriminate|]. intros ->. cbn [length] in Hn. lia.
  - exists (firstn n c), (skipn n c).
    split; [symmetry; apply firstn_skipn|].
    split; [exact Hch|]. rewrite Hfl.
    split; [symmetry; exact Hav|]. split; [exact Hncap|].
    split; [|exact Hdec'].
    intros Hne Hnil. apply Hne, Hz.
    rewrite <- Hfl, Hnil. reflexivity.
Qed.

(** X6: exhaustion is stable on a well-formed stream read with a capacity
    between 1 and [INT_MAX].  Once nothing is left, any number of further
    [operator()] calls all return [false], and [available()] is 0 after each
    of them. *)
Theorem exhausted_stays_exhausted (B : elem_type) (cap : nat) (k : nat)
        (r : GzipFileReader H) :
  0 < Z.of_nat cap <= INT_MAX ->
  has_capacity B cap r ->
  decodes (handle (gz r)) [] ->
  fst (invoke_all B (repeat m_advance k) r) =
    repeat (Returned (v_bool B false)) k /\
  (available r = 0 ->
   available (snd (invoke_all B (repeat m_advance k) r)) = 0).
Proof.
  intros Hcap. revert r. induction k as [|k IH]; intros r Hsz Hdec.
  - split; [reflexivity | intros Ha; exact Ha].
  - destruct (valid_step B cap r [] Hcap Hsz Hdec)
      as (n & Hn & _ & _ & Ho & Hav & _ & Hdec' & Hsz').
    assert (n = O) by (cbn [length] in Hn; lia). subst n.
    cbn [Nat.eqb negb Z.of_nat skipn] in *.
    cbn [repeat invoke_all invoke].
    destruct (advance B r) as [o r1]. cbn [fst snd] in *. subst o.
    destruct (IH r1 Hsz' Hdec') as [IHo IHa].
    destruct (invoke_all B (repeat m_advance k) r1) as [vs r2].
    cbn [fst snd] in *. split.
    + rewrite IHo. reflexivity.
    + intros _. apply IHa. exact Hav.
Qed.

End StreamSteps.

(** * Failed reads *)

Section FailedReads.

Context {H : Type} {lib : Zlib H}.
Variable failing : H -> Prop.
Hypothesis zlib_sticky : sticky_failure failing.

Lemma failing_step (r : GzipFileReader H) :
  failing (handle (gz r)) ->
  0 < request r ->
  fst (advance UnsignedChar r) = Returned true /\
  available (snd (advance UnsignedChar r)) = SIZE_MAX /\
  failing (handle (gz (snd (advance UnsignedChar r)))) /\
  request (snd (advance UnsignedChar r)) = request r.
Proof.
  intros Hf Hreq.
  destruct (failing_read failing zlib_sticky (handle (gz r)) (buffer_ r)
              (request r) Hf Hreq) as (buf' & h' & E & Hf' & Hlen).
  rewrite (advance_unfold UnsignedChar r (-1) buf' h' E).
  cbn. unfold request. cbn [buffer_]. rewrite Hlen. auto.
Qed.

(** X7: with [B = unsigned char], a handle in a sticky error state is never
    reported.  Every call of [operator()] returns [true] with [available()]
    at [SIZE_MAX]; the loop "call until [false]" therefore never ends,
    whatever number of calls it is given, and no exception is ever thrown. *)
Theorem failed_stream_never_ends (r : GzipFileReader H) (fuel : nat) :
  failing (handle (gz r)) ->
  0 < request r ->
  read_all UnsignedChar fuel r = None /\
  fst (advance UnsignedChar r) = Returned true /\
  available (snd (advance UnsignedChar r)) = SIZE_MAX.
Proof.
  intros Hf Hreq. split.
  - revert r Hf Hreq. induction fuel as [|fuel IH]; intros r Hf Hreq.
    + reflexivity.
    + destruct (failing_step r Hf Hreq) as (Ho & _ & Hf' & Hreq').
      cbn [read_all].
      destruct (advance UnsignedChar r) as [o r1]. cbn [fst snd] in *.
      subst o. rewrite IH; [reflexivity | exact Hf' | lia].
  - destruct (failing_step r Hf Hreq) as (Ho & Ha & _). auto.
Qed.

End FailedReads.

(** * Edge cases and the two instantiations *)

Section Edges.

Context {H : Type} {lib : Zlib H}.

(** X8: a reader built with [buffer_size] 0 can never deliver anything.  Its
    read asks for 0 bytes, and when the library answers with a byte count
    within that request the call returns [false] or throws, according to the
    end-of-file indicator alone; it never returns [true]. *)
Theorem zero_capacity_never_delivers (B : elem_type) (r : GzipFileReader H)
        ret buf h' :
  buffer_ r = [] ->
  gzread (handle (gz r)) [] 0 = (ret, buf, h') ->
  0 <= ret <= 0 ->
  fst (advance B r) =
    (if gzeof h' then Returned false else Threw (gzerror h')) /\
  fst (advance B r) <> Returned true /\
  available (snd (advance B r)) = 0.
Proof.
  intros Hb E Hret. assert (ret = 0) by lia. subst ret.
  assert (Hreq : request r = 0) by (unfold request; rewrite Hb; reflexivity).
  assert (E' : gzread (handle (gz r)) (buffer_ r) (request r) = (0, buf, h'))
    by (rewrite Hb, Hreq; exact E).
  rewrite (advance_unfold B r 0 buf h' E'). cbn zeta.
  change (int_to_size_t 0) with 0.
  assert (Hcopy : (if is_same_char B then copy_n buf 0 (counter_buffer r)
                   else Some (counter_buffer r)) = Some (counter_buffer r)).
  { destruct (is_same_char B); [apply copy_n_zero | reflexivity]. }
  rewrite Hcopy. cbn [Z.eqb].
  destruct (gzeof h'); cbn [negb fst snd]; repeat split; discriminate.
Qed.

(** X9: the two instantiations behave alike.  Started on the same handle
    with the same read buffer, [GzipFileReader<char>] and
    [GzipFileReader<unsigned char>] end one call of [operator()] in the same
    way, on the same handle state, read buffer and count, and what the first
    exposes is what the second exposes converted byte by byte, as long as the
    copy into the secondary buffer stays inside the arrays. *)
Theorem instantiations_agree (ru rc : GzipFileReader H) :
  same_core ru rc ->
  fst (advance PlainChar rc) <> Undefined ->
  fst (advance UnsignedChar ru) = fst (advance PlainChar rc) /\
  same_core (snd (advance UnsignedChar ru)) (snd (advance PlainChar rc)) /\
  chunk PlainChar (snd (advance PlainChar rc)) =
    map uchar_to_char (chunk UnsignedChar (snd (advance UnsignedChar ru))).
Proof.
  intros (Hg & Hb & Hr) Hdef.
  assert (Hq : request ru = request rc) by (unfold request; rewrite Hb; reflexivity).
  destruct (gzread (handle (gz rc)) (buffer_ rc) (request rc))
    as [[ret buf] h'] eqn:E.
  assert (Eu : gzread (handle (gz ru)) (buffer_ ru) (request ru)
               = (ret, buf, h')) by (rewrite Hg, Hb, Hq; exact E).
  rewrite (advance_unfold PlainChar rc ret buf h' E) in *.
  rewrite (advance_unfold UnsignedChar ru ret buf h' Eu).
  cbn zeta in *. cbn [is_same_char] in *. rewrite Hg, Hq.
  unfold copy_n in *.
  destruct (int_to_size_t ret <=? Z.of_nat (length buf)) eqn:Hs;
    [|cbn in Hdef; congruence].
  destruct (int_to_size_t ret <=? Z.of_nat (length (counter_buffer rc)))
    eqn:Hd; [|cbn in Hdef; congruence].
  cbn [andb] in *. apply Z.leb_le in Hs.
  assert (Hchunk : forall (g g' : GZFile H) (cb : list char),
            chunk PlainChar
              (mkReader g buf
                 (map uchar_to_char (firstn (Z.to_nat (int_to_size_t ret)) buf)
                  ++ skipn (Z.to_nat (int_to_size_t ret)) (counter_buffer rc))
                 (int_to_size_t ret)) =
            map uchar_to_char
              (chunk UnsignedChar (mkReader g' buf cb (int_to_size_t ret)))).
  { intros g g' cb. unfold chunk, available, buffer.
    cbn [read buffer_ counter_buffer].
    rewrite firstn_app, length_map, length_firstn.
    replace (Z.to_nat (int_to_size_t ret)
             - Nat.min (Z.to_nat (int_to_size_t ret)) (length buf))%nat
      with O by lia.
    cbn [firstn]. rewrite app_nil_r. apply firstn_all2.
    rewrite length_map, length_firstn. lia. }
  destruct (int_to_size_t ret =? 0); [destruct (gzeof h')|];
    cbn [negb fst snd]; (split; [reflexivity|]);
    (split; [repeat split|apply Hchunk]).
Qed.

End Edges.

Section Safety.

Context {H : Type} {lib : Zlib H}.

(** X10: which calls stay inside the arrays.  With [B = unsigned char] a call
    of [operator()] never runs off an array, whatever [gzread] answers.  With
    [B = char] it does exactly when the count stored from [gzread]'s answer
    is larger than the capacity, because that many elements are then copied
    into the secondary buffer. *)
Theorem arrays_are_respected (cap : nat) (r : GzipFileReader H) :
  keeps_buffer_length ->
  fst (advance UnsignedChar r) <> Undefined /\
  (has_capacity PlainChar cap r ->
   (fst (advance PlainChar r) = Undefined <->
    Z.of_nat cap <
      int_to_size_t
        (fst (fst (gzread (handle (gz r)) (buffer_ r) (request r)))))).
Proof.
  intros Hlib.
  pose proof (Hlib (handle (gz r)) (buffer_ r) (request r)
                (request_le_size r)) as Hlen.
  destruct (gzread (handle (gz r)) (buffer_ r) (request r))
    as [[ret buf] h'] eqn:E.
  cbn [fst snd] in *. split.
  - rewrite (advance_unfold UnsignedChar r ret buf h' E). cbn zeta.
    cbn [is_same_char].
    destruct (int_to_size_t ret =? 0); [destruct (gzeof h')|];
      cbn [negb fst]; discriminate.
  - intros [Hb Hc]. cbn [is_same_char] in Hc.
    rewrite (advance_unfold PlainChar r ret buf h' E). cbn zeta.
    cbn [is_same_char]. unfold copy_n.
    rewrite Hlen, Hb, Hc, andb_diag.
    destruct (Z.leb_spec (int_to_size_t ret) (Z.of_nat cap)) as [Hle | Hgt].
    + split; [|lia].
      destruct (int_to_size_t ret =? 0); [destruct (gzeof h')|];
        cbn [negb fst]; discriminate.
    + cbn [fst]. split; [intros _; exact Hgt | reflexivity].
Qed.

(** X11: the call that returns [false] never carries data.  When
    [operator()] returns [false], [available()] is 0 and nothing is exposed;
    when it returns [true], [available()] is not 0.  Every byte of the
    stream is thus delivered by a call that returned [true]. *)
Theorem last_call_is_empty (B : elem_type) (r : GzipFileReader H) :
  (fst (advance B r) = Returned false ->
   available (snd (advance B r)) = 0 /\ chunk B (snd (advance B r)) = []) /\
  (fst (advance B r) = Returned true ->
   available (snd (advance B r)) <> 0).
Proof.
  destruct (gzread (handle (gz r)) (buffer_ r) (request r))
    as [[ret buf] h'] eqn:E.
  rewrite (advance_unfold B r ret buf h' E). cbn zeta.
  destruct (if is_same_char B then _ else _) as [cb|].
  - destruct (Z.eqb_spec (int_to_size_t ret) 0) as [Hz | Hnz].
    + destruct (gzeof h'); cbn [negb fst snd]; split; try discriminate.
      intros _. unfold chunk, available. cbn [read]. rewrite Hz.
      split; reflexivity.
    + cbn [fst snd]. split; [discriminate|]. intros _. exact Hnz.
  - cbn [fst snd]. split; discriminate.
Qed.

End Safety.

(** * A throw leaves the reader as it was *)

Section Throws.

Context {H : Type} {lib : Zlib H} {M : Type} {heap : Heap M}.
Variable errored : H -> Prop.
Hypothesis zlib_ok : zlib_contract errored.

(** After a call, a reader whose read asks for no byte has a count of 0,
    unless its handle is in the error state. *)
Lemma idle_count_is_kept (B : elem_type) (r : GzipFileReader H) :
  request (snd (advance B r)) = 0 ->
  read (snd (advance B r)) = 0 \/ errored (handle (gz (snd (advance B r)))).
Proof.
  destruct (gzread (handle (gz r)) (buffer_ r) (request r))
    as [[ret buf] h'] eqn:E.
  destruct (advance_state B r ret buf h' E) as (Hb & Hr & Hh).
  pose proof (request_le_size r) as Hq.
  destruct (array_kept errored zlib_ok _ _ _ _ _ _ E Hq) as [Hlen _].
  unfold request at 1. rewrite Hb, Hlen. fold (request r). intros Hz.
  pose proof (result_range errored zlib_ok _ _ _ _ _ _ E (proj1 Hq)) as Hret.
  rewrite Hr, Hh.
  assert (Hcases : ret = 0 \/ ret = -1) by lia.
  destruct Hcases as [-> | ->].
  - left. reflexivity.
  - right. exact (error_is_entered errored zlib_ok _ _ _ _ _ E).
Qed.


End Throws.

(** * A buffer larger than [INT_MAX] *)

Section Oversized.

Context {H : Type} {lib : Zlib H}.
Hypothesis zlib_rejects : rejects_oversized_requests.

Lemma oversized_step (r : GzipFileReader H) :
  INT_MAX < request r ->
  fst (advance UnsignedChar r) = Returned true /\
  available (snd (advance UnsignedChar r)) = SIZE_MAX /\
  request (snd (advance UnsignedChar r)) = request r.
Proof.
  intros Hreq.
  destruct (zlib_rejects (handle (gz r)) (buffer_ r) (request r) Hreq)
    as (buf' & h' & E & Hlen).
  rewrite (advance_unfold UnsignedChar r (-1) buf' h' E).
  cbn. unfold request. cbn [buffer_]. rewrite Hlen. auto.
Qed.

Lemma oversized_never_ends (fuel : nat) (r : GzipFileReader H) :
  INT_MAX < request r ->
  read_all UnsignedChar fuel r = None.
Proof.
  revert r. induction fuel as [|fuel IH]; intros r Hreq.
  - reflexivity.
  - destruct (oversized_step r Hreq) as (Ho & _ & Hreq').
    cbn [read_all].
    destruct (advance UnsignedChar r) as [o r1]. cbn [fst snd] in *.
    subst o. rewrite IH; [reflexivity | lia].
Qed.

End Oversized.

(** * The simulated zlib, continued *)

Lemma sim_keeps_buffer_length (d : sim_disk) :
  keeps_buffer_length (lib := sim_zlib d).
Proof.
  intros h buf len Hlen. cbn [gzread sim_zlib]. unfold sim_gzread.
  destruct (fate h); try reflexivity;
    (destruct (INT_MAX <? len); [reflexivity|]);
    (destruct (len =? 0); [reflexivity|]); try reflexivity.
  destruct (pending h) as [|b p] eqn:Hp; [reflexivity|].
  cbn [fst snd].
  rewrite length_app, length_skipn, length_firstn. lia.
Qed.

Lemma sim_sticky_failure (d : sim_disk) :
  sticky_failure (lib := sim_zlib d) sim_failing.
Proof.
  constructor. intros h buf len Hf Hlen.
  cbn [gzread sim_zlib]. unfold sim_gzread, sim_failing.
  assert (Hz : (len =? 0) = false) by (apply Z.eqb_neq; lia).
  destruct Hf as [Hf | Hf]; rewrite Hf.
  - destruct (INT_MAX <? len); [|rewrite Hz];
      eexists _, _; (split; [reflexivity|]); (split; [|reflexivity]);
      right; reflexivity.
  - eexists _, _. split; [reflexivity|]. split; [|reflexivity].
    right. exact Hf.
Qed.

Lemma sim_rejects_oversized_requests (d : sim_disk) :
  rejects_oversized_requests (lib := sim_zlib d).
Proof.
  intros h buf len Hlen. cbn [gzread sim_zlib]. unfold sim_gzread.
  assert (Hbig : (INT_MAX <? len) = true) by (apply Z.ltb_lt; exact Hlen).
  rewrite Hbig.
  destruct (fate h); eexists _, _; split; reflexivity.
Qed.

Lemma sim_zlib_contract (d : sim_disk) :
  zlib_contract (lib := sim_zlib d) sim_errored.
Proof.
  constructor; cbn [gzread gzeof sim_zlib]; unfold sim_gzread, sim_errored.
  - intros h buf len ret buf' h' E Hlen.
    destruct (fate h) eqn:Hf.
    3:{ injection E as <- _ _. lia. }
    all: destruct (Z.ltb_spec INT_MAX len) as [Hbig | Hfit];
      [injection E as <- _ _; unfold INT_MAX in Hbig; lia|];
      destruct (Z.eqb_spec len 0) as [Hz | Hnz];
      [injection E as <- _ _; lia|].
    2:{ injection E as <- _ _. lia. }
    destruct (pending h) as [|b p]; [injection E as <- _ _; lia|].
    injection E as <- _ _. rewrite length_firstn. lia.
  - intros h buf len ret buf' h' E Hlen.
    destruct (fate h) eqn:Hf.
    3:{ injection E as <- <- _. split; [reflexivity | intros; lia]. }
    all: destruct (Z.ltb_spec INT_MAX len) as [Hbig | Hfit];
      [injection E as <- <- _; split; [reflexivity | intros; lia]|];
      destruct (Z.eqb_spec len 0) as [Hz | Hnz];
      [injection E as <- <- _; split; reflexivity|].
    2:{ injection E as <- <- _. split; [reflexivity | intros; lia]. }
    destruct (pending h) as [|b p];
      [injection E as <- <- _; split; reflexivity|].
    injection E as <- <- _.
    set (out := firstn (Z.to_nat len) (b :: p)).
    assert (Hout : (length out <= length buf)%nat).
    { subst out. rewrite length_firstn. lia. }
    split.
    + rewrite length_app, length_skipn. lia.
    + intros _. rewrite Nat2Z.id, skipn_app, Nat.sub_diag.
      rewrite skipn_all2 by lia. reflexivity.
  - intros h buf len buf' h' E Hlen.
    assert (Hnz : (len =? 0) = false) by (apply Z.eqb_neq; lia).
    rewrite Hnz in E.
    destruct (fate h) eqn:Hf; try discriminate E;
      destruct (INT_MAX <? len); try discriminate E.
    destruct (pending h) as [|b p] eqn:Hp.
    + injection E as _ <-. reflexivity.
    + exfalso. injection E as E0 _ _.
      rewrite length_firstn in E0. cbn [length] in E0. lia.
  - intros h buf len buf' h' E.
    destruct (fate h) eqn:Hf.
    3:{ injection E as _ <-. exact Hf. }
    all: destruct (INT_MAX <? len); [injection E as _ <-; reflexivity|];
      destruct (len =? 0); [discriminate E|].
    2:{ injection E as _ <-. reflexivity. }
    destruct (pending h) as [|b p]; [discriminate E|].
    exfalso. injection E as E0 _ _. lia.
  - intros h buf len ret buf' h' Hf E. rewrite Hf in E.
    injection E as <- _ _. reflexivity.
Qed.

Lemma capacity_is_invariant_witness :
  has_capacity PlainChar 4
    (snd (invoke_all (lib := example_zlib) PlainChar
            [m_advance; m_buffer; m_advance; m_advance; m_available]
            (fresh_reader PlainChar (bytes "ABCD") CleanEnd 4))).
Proof.
  apply (capacity_is_invariant (lib := example_zlib) PlainChar 4).
  - exact (sim_keeps_buffer_length example_disk).
  - split; reflexivity.
Defined.

Lemma requests_fit_the_buffer_witness :
  Forall (request_within 4)
    (calls (gz (snd (invoke_all (lib := example_zlib) UnsignedChar
                       [m_advance; m_advance; m_advance; m_advance]
                       (fresh_reader UnsignedChar (bytes "ABCDEFGHIJ")
                          CleanEnd 4))))).
Proof.
  apply (requests_fit_the_buffer (lib := example_zlib) UnsignedChar 4).
  - exact (sim_keeps_buffer_length example_disk).
  - split; reflexivity.
  - constructor.
Defined.

Lemma library_calls_are_ordered_witness :
  ordered_after None
    (calls (gz (snd (invoke_all (lib := example_zlib) UnsignedChar
                       [m_advance; m_available; m_advance; m_advance]
                       (fresh_reader UnsignedChar (bytes "ABCD")
                          CleanEnd 0))))) = true.
Proof.
  apply (library_calls_are_ordered (lib := example_zlib) UnsignedChar).
  reflexivity.
Defined.

Lemma one_read_per_call_witness :
  let ms := [m_advance; m_buffer; m_advance; m_advance; m_advance] in
  let r := fresh_reader UnsignedChar (bytes "ABCD") CleanEnd 4 in
  let run := invoke_all (lib := example_zlib) UnsignedChar ms r in
  count_reads (calls (gz (snd run))) =
    (count_reads (calls (gz r))
     + length (filter is_advance (firstn (length (fst run)) ms)))%nat.
Proof.
  exact (one_read_per_call (lib := example_zlib) UnsignedChar
           [m_advance; m_buffer; m_advance; m_advance; m_advance]
           (fresh_reader UnsignedChar (bytes "ABCD") CleanEnd 4)).
Defined.

(** With a capacity of 0 a run stops at its first [operator()]: the read of
    no byte is followed by the end-of-file query and, the indicator being
    clear, by the error query and the throw. *)
Example calls_with_zero_capacity :
  let ms := [m_available; m_advance; m_advance] in
  let r := fresh_reader UnsignedChar (bytes "ABCD") CleanEnd 0 in
  let run := invoke_all (lib := example_zlib) UnsignedChar ms r in
  length (fst run) = 2%nat /\
  calls (gz (snd run)) = [CallRead 0; CallEof; CallError].
Proof. split; reflexivity. Qed.

Lemma advance_on_valid_stream_witness :
  let r := fresh_reader PlainChar [x41; xe9; xff] CleanEnd 2 in
  let r' := snd (advance (lib := example_zlib) PlainChar r) in
  (fst (advance (lib := example_zlib) PlainChar r) = Returned true
   <-> [x41; xe9; xff] <> []) /\
  (fst (advance (lib := example_zlib) PlainChar r) = Returned false
   <-> [x41; xe9; xff] = []) /\
  exists front rest,
    [x41; xe9; xff] = front ++ rest /\
    chunk PlainChar r' = map (reinterpret PlainChar) front /\
    Z.of_nat (length front) = available r' /\
    (length front <= 2)%nat /\
    ([x41; xe9; xff] <> [] -> front <> []) /\
    sim_decodes (handle (gz r')) rest.
Proof.
  apply (advance_on_valid_stream (lib := example_zlib) sim_decodes
           (sim_stream_contract example_disk) PlainChar 2).
  - unfold INT_MAX. simpl. lia.
  - split; reflexivity.
  - split; reflexivity.
Defined.

Lemma exhausted_stays_exhausted_witness :
  let r := fresh_reader UnsignedChar [] CleanEnd 4 in
  fst (invoke_all (lib := example_zlib) UnsignedChar (repeat m_advance 3) r) =
    repeat (Returned (v_bool UnsignedChar false)) 3 /\
  (available r = 0 ->
   available
     (snd (invoke_all (lib := example_zlib) UnsignedChar
             (repeat m_advance 3) r)) = 0).
Proof.
  apply (exhausted_stays_exhausted (lib := example_zlib) sim_decodes
           (sim_stream_contract example_disk) UnsignedChar 4 3).
  - unfold INT_MAX. simpl. lia.
  - split; reflexivity.
  - split; reflexivity.
Defined.

Lemma failed_stream_never_ends_witness :
  let r := fresh_reader UnsignedChar [] DataError 4 in
  read_all (lib := example_zlib) UnsignedChar 50 r = None /\
  fst (advance (lib := example_zlib) UnsignedChar r) = Returned true /\
  available (snd (advance (lib := example_zlib) UnsignedChar r)) = SIZE_MAX.
Proof.
  apply (failed_stream_never_ends (lib := example_zlib) sim_failing
           (sim_sticky_failure example_disk)).
  - left. reflexivity.
  - reflexivity.
Defined.

Lemma zero_capacity_never_delivers_witness :
  let r := fresh_reader PlainChar (bytes "ABCDEFGHIJ") CleanEnd 0 in
  fst (advance (lib := example_zlib) PlainChar r) =
    (if false then Returned false else Threw String.EmptyString) /\
  fst (advance (lib := example_zlib) PlainChar r) <> Returned true /\
  available (snd (advance (lib := example_zlib) PlainChar r)) = 0.
Proof.
  apply (zero_capacity_never_delivers (lib := example_zlib) PlainChar
           (fresh_reader PlainChar (bytes "ABCDEFGHIJ") CleanEnd 0)
           0 []
           (mkSim (bytes "ABCDEFGHIJ") CleanEnd false String.EmptyString)).
  - reflexivity.
  - reflexivity.
  - lia.
Defined.

Lemma instantiations_agree_witness :
  let ru := fresh_reader UnsignedChar [x41; xe9; xff] CleanEnd 2 in
  let rc := fresh_reader PlainChar [x41; xe9; xff] CleanEnd 2 in
  fst (advance (lib := example_zlib) UnsignedChar ru) =
    fst (advance (lib := example_zlib) PlainChar rc) /\
  same_core (snd (advance (lib := example_zlib) UnsignedChar ru))
            (snd (advance (lib := example_zlib) PlainChar rc)) /\
  chunk PlainChar (snd (advance (lib := example_zlib) PlainChar rc)) =
    map uchar_to_char
      (chunk UnsignedChar (snd (advance (lib := example_zlib) UnsignedChar ru))).
Proof.
  apply (instantiations_agree (lib := example_zlib)).
  - repeat split.
  - discriminate.
Defined.

Lemma arrays_are_respected_witness :
  let r := fresh_reader PlainChar [] DataError 4 in
  fst (advance (lib := example_zlib) PlainChar r) = Undefined <->
  4 < int_to_size_t
        (fst (fst (gzread (Zlib := example_zlib) (handle (gz r)) (buffer_ r)
                     (request r)))).
Proof.
  apply (proj2 (arrays_are_respected (lib := example_zlib) 4
                  (fresh_reader PlainChar [] DataError 4)
                  (sim_keeps_buffer_length example_disk))).
  split; reflexivity.
Defined.

Lemma last_call_is_empty_witness :
  let r := fresh_reader UnsignedChar [] CleanEnd 4 in
  available (snd (advance (lib := example_zlib) UnsignedChar r)) = 0 /\
  chunk UnsignedChar (snd (advance (lib := example_zlib) UnsignedChar r)) = [].
Proof.
  apply (proj1 (last_call_is_empty (lib := example_zlib) UnsignedChar
                  (fresh_reader UnsignedChar [] CleanEnd 4))).
  reflexivity.
Defined.


(** C1: a reader built with a [buffer_size] of 2^31 on the file of the ten
    letters, a well-formed stream.  Its read asks for 2^31 bytes, which does
    not fit an [int]: [gzread] answers -1, the call of [operator()] returns
    [true] with [available()] at [SIZE_MAX], and the loop "call until
    [false]" delivers nothing, whatever number of calls it is given. *)
Theorem oversized_buffer_never_delivers :
  let r := fresh_reader UnsignedChar (bytes "ABCDEFGHIJ") CleanEnd
             (Z.to_nat 2147483648) in
  new_GzipFileReader (lib := example_zlib) UnsignedChar "letters.gz"
    2147483648 4294967296 = Returned r /\
  sim_decodes (handle (gz r)) (bytes "ABCDEFGHIJ") /\
  request r = 2147483648 /\
  fst (advance (lib := example_zlib) UnsignedChar r) = Returned true /\
  available (snd (advance (lib := example_zlib) UnsignedChar r))
    = 18446744073709551615 /\
  forall fuel : nat, read_all (lib := example_zlib) UnsignedChar fuel r = None.
Proof.
  cbv zeta.
  set (r := fresh_reader UnsignedChar (bytes "ABCDEFGHIJ") CleanEnd
              (Z.to_nat 2147483648)).
  assert (Hreq : request r = 2147483648).
  { unfold request, r, fresh_reader. cbn [buffer_].
    rewrite repeat_length, Z2Nat.id by lia. reflexivity. }
  assert (Hbig : INT_MAX < request r) by (rewrite Hreq; reflexivity).
  destruct (oversized_step (lib := example_zlib)
              (sim_rejects_oversized_requests example_disk) r Hbig)
    as (Ho & Ha & _).
  split; [reflexivity|]. split; [split; reflexivity|].
  split; [exact Hreq|]. split; [exact Ho|]. split; [exact Ha|].
  intros fuel.
  exact (oversized_never_ends (lib := example_zlib)
           (sim_rejects_oversized_requests example_disk) fuel r Hbig).
Qed.
